(** * Image acquisition and normalisation scripts: a shallow embedding

    The development follows the four scripts of the repository:
    - [downloadimages.py]          (download only),
    - [downloadimagesasjpg.py]     (download, WEBP conversion),
    - [downloadimagesasjpgforce.py] (download, WEBP/HEIC/forced conversion),
    - [copy_images_to_events.py]   (category foldering).

    Python [str] values are Rocq strings; the images directory is a finite
    map from file names to file contents; exceptions are an explicit result
    type; the network, the local file system outside the images directory
    and the image codec are oracles the theorems quantify over. *)

From Stdlib Require Import Ascii String.
From stdpp Require Import gmap strings pretty list.

Local Open Scope string_scope.
Local Open Scope nat_scope.

(** ** Strings as Python uses them

    The text handled by the scripts (URLs, media types, file and column
    names) is taken to be ASCII: a character outside ASCII is carried along
    unchanged and is neither a letter, a digit nor white space. *)

Module PyStr.

Definition eqb_ascii (a b : ascii) : bool := bool_decide (a = b).

Fixpoint contains_char (c : ascii) (s : string) : bool :=
  match s with
  | "" => false
  | String a s' => eqb_ascii a c || contains_char c s'
  end.

Fixpoint all_chars (P : ascii → bool) (s : string) : bool :=
  match s with
  | "" => true
  | String a s' => P a && all_chars P s'
  end.

Definition is_not (c : ascii) (a : ascii) : bool := negb (eqb_ascii a c).

(** The first, resp. last, character of [s], if any, is none of [chars]. *)
Definition head_free (chars : string) (s : string) : bool :=
  match s with
  | "" => true
  | String a _ => negb (contains_char a chars)
  end.

Definition last_free (chars : string) (s : string) : bool :=
  head_free chars (String.rev s).

(** [c] never occurs twice in a row. *)
Fixpoint no_repeat (c : ascii) (s : string) : bool :=
  match s with
  | "" => true
  | String a s' =>
      negb (eqb_ascii a c && negb (head_free (String c "") s'))
      && no_repeat c s'
  end.

(** [s.rpartition(c)]: [Some (before, after)] around the last [c], or
    [None] when [c] does not occur (Python then returns ("", "", s)). *)
Fixpoint rpartition (c : ascii) (s : string) : option (string * string) :=
  match s with
  | "" => None
  | String a s' =>
      match rpartition c s' with
      | Some (l, r) => Some (String a l, r)
      | None => if eqb_ascii a c then Some ("", s') else None
      end
  end.

(** [s.split(c, 1)]: [Some (before, after)] around the first [c]. *)
Fixpoint partition (c : ascii) (s : string) : option (string * string) :=
  match s with
  | "" => None
  | String a s' =>
      if eqb_ascii a c then Some ("", s')
      else match partition c s' with
           | Some (l, r) => Some (String a l, r)
           | None => None
           end
  end.

(** [s.split(c)]: never empty, the pieces between the separators. *)
Fixpoint split (c : ascii) (s : string) : list string :=
  match s with
  | "" => [""]
  | String a s' =>
      if eqb_ascii a c then "" :: split c s'
      else match split c s' with
           | p :: ps => String a p :: ps
           | [] => [String a ""]
           end
  end.

Fixpoint startswith (p s : string) : bool :=
  match p, s with
  | "", _ => true
  | String a p', String b s' => eqb_ascii a b && startswith p' s'
  | String _ _, "" => false
  end.

Definition endswith (s p : string) : bool :=
  startswith (String.rev p) (String.rev s).

(** [str.lower] on the ASCII letters; other characters are unchanged. *)
Definition lower_char (a : ascii) : ascii :=
  let n := nat_of_ascii a in
  if (65 <=? n)%nat && (n <=? 90)%nat then ascii_of_nat (n + 32) else a.

Fixpoint lower (s : string) : string :=
  match s with
  | "" => ""
  | String a s' => String (lower_char a) (lower s')
  end.

Definition upper_char (a : ascii) : ascii :=
  let n := nat_of_ascii a in
  if (97 <=? n)%nat && (n <=? 122)%nat then ascii_of_nat (n - 32) else a.

Fixpoint upper (s : string) : string :=
  match s with
  | "" => ""
  | String a s' => String (upper_char a) (upper s')
  end.

(** [s.lstrip(chars)], [s.rstrip(chars)], [s.strip(chars)]. *)
Fixpoint lstrip (chars : string) (s : string) : string :=
  match s with
  | "" => ""
  | String a s' => if contains_char a chars then lstrip chars s' else s
  end.

Definition rstrip (chars : string) (s : string) : string :=
  String.rev (lstrip chars (String.rev s)).

Definition strip (chars : string) (s : string) : string :=
  rstrip chars (lstrip chars s).

(** The characters removed by [s.strip()] without argument. *)
Definition whitespace : string :=
  String "009" (String "010" (String "011" (String "012" (String "013"
    (String "028" (String "029" (String "030" (String "031" " ")))))))).

Fixpoint take (n : nat) (s : string) : string :=
  match n, s with
  | S n', String a s' => String a (take n' s')
  | _, _ => ""
  end.

(** Truthiness of a [str]. *)
Definition truthy (s : string) : bool := negb (bool_decide (s = "")).

Definition in_list (s : string) (l : list string) : bool :=
  bool_decide (s ∈ l).

End PyStr.

(** ** pathlib: the final component of a path, its stem and its suffix *)

Module PyPath.

(** [Path(p).name]: the last component, where empty components and
    "." components are dropped by the parser. *)
Definition name (p : string) : string :=
  default "" (last (filter (λ c, c ≠ "" ∧ c ≠ ".") (PyStr.split "/" p))).

(** [suffix] and [stem] of a final component: the name is cut at its last
    dot when that dot is neither the first nor the last character. *)
Definition suffix_of_name (n : string) : string :=
  match PyStr.rpartition "." n with
  | Some (l, r) =>
      if PyStr.truthy l && PyStr.truthy r then String "." r else ""
  | None => ""
  end.

Definition stem_of_name (n : string) : string :=
  match PyStr.rpartition "." n with
  | Some (l, r) => if PyStr.truthy l && PyStr.truthy r then l else n
  | None => n
  end.

Definition suffix (p : string) : string := suffix_of_name (name p).
Definition stem (p : string) : string := stem_of_name (name p).

(** [str(Path(p))]: the components joined again, after the root if any;
    "." for the empty path. *)
Definition components (p : string) : list string :=
  filter (λ c, c ≠ "" ∧ c ≠ ".") (PyStr.split "/" p).

Definition root (p : string) : string :=
  if PyStr.startswith "///" p then "/"
  else if PyStr.startswith "//" p then "//"
  else if PyStr.startswith "/" p then "/"
  else "".

Definition to_str (p : string) : string :=
  let s := root p +:+ String.concat "/" (components p) in
  if PyStr.truthy s then s else ".".

End PyPath.

(** ** The images directory and [unique_path] *)

Module Naming.

(** Whether [dirpath / n] exists, for a snapshot [dir] of the names present
    in the directory: joining the empty name gives the directory itself and
    ".." its parent, which both exist. *)
Definition exists_in (dir : gset string) (n : string) : bool :=
  bool_decide (n = "" ∨ n = ".." ∨ n ∈ dir).

(** The candidate tested after [k] collisions. *)
Definition candidate (base ext : string) (k : nat) : string :=
  match k with
  | O => base +:+ ext
  | S _ => base +:+ "-" +:+ pretty k +:+ ext
  end.

(** The [while candidate.exists()] loop; [i] is the counter of the source,
    [fuel] bounds the number of iterations: [unique_loop_fuel_suffices]
    shows that [S (size dir)] is never used up. *)
Fixpoint unique_loop (dir : gset string) (base ext : string)
    (fuel : nat) (cand : string) (i : nat) : string :=
  if exists_in dir cand then
    match fuel with
    | O => cand
    | S fuel' =>
        unique_loop dir base ext fuel' (base +:+ "-" +:+ pretty i +:+ ext) (S i)
    end
  else cand.

(** [unique_path(dirpath, filename).name]. *)
Definition unique_path (dir : gset string) (filename : string) : string :=
  let base := PyPath.stem filename in
  let ext := PyPath.suffix filename in
  unique_loop dir base ext (S (size dir)) (base +:+ ext) 1.

End Naming.


(** ** Regular-expression substitutions used by the scripts *)

Module PyRe.

(** [re.sub(r"[class]+", rep, s)]: every maximal run of characters of the
    class [bad] is replaced by one [rep]. *)
Fixpoint sub_runs (bad : ascii → bool) (rep : string) (in_run : bool)
    (s : string) : string :=
  match s with
  | "" => ""
  | String a s' =>
      if bad a then
        if in_run then sub_runs bad rep true s'
        else rep +:+ sub_runs bad rep true s'
      else String a (sub_runs bad rep false s')
  end.

(** [re.sub(r"[class]", rep, s)]: every character of the class is
    replaced. *)
Fixpoint sub_each (bad : ascii → bool) (rep : string) (s : string) : string :=
  match s with
  | "" => ""
  | String a s' =>
      if bad a then rep +:+ sub_each bad rep s'
      else String a (sub_each bad rep s')
  end.

(** [re.sub(r"[?#].*$", "", s)] on a name without line breaks: the name is
    cut at its first "?" or "#". *)
Fixpoint cut_query (s : string) : string :=
  match s with
  | "" => ""
  | String a s' =>
      if PyStr.eqb_ascii a "?" || PyStr.eqb_ascii a "#" then ""
      else String a (cut_query s')
  end.

Definition is_alnum (a : ascii) : bool :=
  let n := nat_of_ascii a in
  ((48 <=? n) && (n <=? 57)) || ((65 <=? n) && (n <=? 90))
  || ((97 <=? n) && (n <=? 122)).

(** [\w] on ASCII text. *)
Definition is_word (a : ascii) : bool := is_alnum a || PyStr.eqb_ascii a "_".

End PyRe.

(** ** Extension inference from a Content-Type header

    [mimetypes.guess_extension] is the platform's MIME table: the scripts'
    [guess_ext_from_content_type] functions, further down, take it as a
    parameter. Here are the pieces they share. *)

Module ContentType.
Import PyStr.

(** The media type given to the table: [ct.split(";")[0].strip()]. *)
Definition media_type (ct : string) : string :=
  strip whitespace (default "" (head (split ";" ct))).

(** [ct.split("/", 1)[-1]]. *)
Definition subtype_of (ct : string) : string :=
  match partition "/" ct with
  | Some (_, r) => r
  | None => ct
  end.

Definition jpeg_exts : list string := [".jpe"; ".jpeg"; ".jpg"].

(** A value of [Optional[str]] that is truthy: not [None], not "". *)
Definition nonempty (o : option string) : option string :=
  match o with
  | Some e => if truthy e then Some e else None
  | None => None
  end.

Definition opt_in (o : option string) (l : list string) : bool :=
  match o with
  | Some e => in_list e l
  | None => false
  end.


(** An excerpt of CPython's default MIME table ([mimetypes.types_map]
    read from type to preferred extension); the lookup lower-cases the
    type as [guess_extension] does. *)
Definition cpython_types_map : list (string * string) :=
  [ ("image/jpeg", ".jpg"); ("image/png", ".png"); ("image/gif", ".gif");
    ("image/bmp", ".bmp"); ("image/tiff", ".tiff"); ("image/webp", ".webp");
    ("image/svg+xml", ".svg"); ("text/html", ".html"); ("text/plain", ".txt");
    ("text/css", ".css"); ("application/pdf", ".pdf");
    ("application/json", ".json"); ("application/zip", ".zip") ].

Definition cpython_guess_extension (t : string) : option string :=
  snd <$> List.find (λ p, bool_decide (fst p = lower t)) cpython_types_map.

End ContentType.


(** ** File names from URLs *)

Module Url.
Import PyStr.

(** [os.path.basename]: what follows the last "/". *)
Definition basename (p : string) : string :=
  match rpartition "/" p with
  | Some (_, r) => r
  | None => p
  end.

(** [guess_name_and_ext_from_url]; [urlparse_path url] is
    [urlparse(url).path]. The text is the same in the three download
    scripts. *)
Definition guess_name_and_ext_from_url (urlparse_path : string → string)
    (url : string) : string * string :=
  let name := basename (urlparse_path url) in
  if negb (truthy name) then ("download", ".jpg")
  else
    let name := PyRe.cut_query name in
    match rpartition "." name with
    | None => (name, ".jpg")
    | Some (stem, ext) =>
        let ext := lower ext in
        let ext := if in_list ext ["jpeg"; "jpe"; "jpg"] then "jpg" else ext in
        (if truthy stem then stem else "download", "." +:+ ext)
    end.

(** [sanitize_filename]: runs of characters outside [\w], "-" and "." become
    one "_"; dots and underscores are trimmed from both ends; "file" when
    nothing is left. *)
Definition unsafe_char (a : ascii) : bool :=
  negb (PyRe.is_word a || eqb_ascii a "-" || eqb_ascii a ".").

Definition sanitize_filename (s : string) : string :=
  let s := strip "._" (PyRe.sub_runs unsafe_char "_" false s) in
  if truthy s then s else "file".

(** [hashlib.sha1(...).hexdigest()]: the digest is a 160-bit number, written
    with 40 lower-case hexadecimal digits. *)
Definition hex_char (d : N) : ascii :=
  match d with
  | 0 => "0" | 1 => "1" | 2 => "2" | 3 => "3" | 4 => "4" | 5 => "5"
  | 6 => "6" | 7 => "7" | 8 => "8" | 9 => "9" | 10 => "a" | 11 => "b"
  | 12 => "c" | 13 => "d" | 14 => "e" | _ => "f"
  end%N%char.

Fixpoint hex_digits (n : nat) (x : N) (acc : string) : string :=
  match n with
  | O => acc
  | S n' => hex_digits n' (x / 16)%N (String (hex_char (x mod 16)%N) acc)
  end.

Definition hexdigest (digest : N) : string := hex_digits 40 digest "".

(** The stem preferred over a short or generic one: "img_" and the first ten
    digits of the digest. *)
Definition hash_stem (digest : N) : string :=
  "img_" +:+ take 10 (hexdigest digest).

End Url.

(** ** Decoded images

    What the conversion code reads and changes of a PIL image: its mode,
    whether [im.info] has a "transparency" entry, whether it is animated and
    at which frame it stands, and the EXIF orientation under which its pixel
    data is stored (1, or 0 for no tag: the pixels are upright; 2 to 8: the
    pixels still have to be flipped or rotated to be displayed as
    intended). *)

Record image := {
  mode : string;
  transparency : bool;
  is_animated : bool;
  frame : nat;
  orientation : nat
}.

(** A file of the images directory: bytes as downloaded, or the result of
    [im.save] in a given format. *)
Inductive content :=
| Raw (bytes : string)
| Encoded (format : string) (im : image).

(** ** The environment of a run *)

Inductive http_outcome :=
| TransportError
    (* [requests.get] raises: connection error, timeout, ... *)
| Response (status : nat) (content_type : option string)
    (chunks : list string) (complete : bool).
    (* a response; [iter_content] yields [chunks] and then ends, or raises
       when [complete] is false *)

Inductive local_entry :=
| NotAFile                   (* [p.exists() and p.is_file()] is false *)
| Unreadable                 (* a regular file; [p.read_bytes()] raises *)
| Readable (bytes : string).

Record world := {
  sha1 : string → N;
  urlparse_scheme : string → string;
  urlparse_path : string → string;
  guess_extension : string → option string;
  b64decode : string → option string;      (* [None]: [binascii.Error] *)
  http_get : string → nat → http_outcome;  (* the answer to the n-th GET of the run *)
  local_file : string → local_entry;
  write_ok : string → bool;                (* writing the named file succeeds *)
  image_open : string → option image;      (* [None]: [UnidentifiedImageError] *)
  encoder_ok : string → image → bool;      (* [im.save] succeeds for the format *)
  unlink_ok : string → bool;
  heif_available : bool                    (* [pillow_heif is not None] *)
}.

Inductive event :=
| EvGet (url : string)
| EvWrite (name : string)
| EvUnlink (name : string)
| EvWarn (message : string).

(** The images directory, the number of GET requests issued so far, and what
    has been done, latest first. *)
Record state := {
  dir : gmap string content;
  gets : nat;
  trace : list event
}.

Definition log (e : event) (st : state) : state :=
  {| dir := dir st; gets := gets st; trace := e :: trace st |}.

Definition write_file (n : string) (c : content) (st : state) : state :=
  {| dir := <[n := c]> (dir st); gets := gets st; trace := EvWrite n :: trace st |}.

Definition unlink_file (n : string) (st : state) : state :=
  {| dir := delete n (dir st); gets := gets st; trace := EvUnlink n :: trace st |}.

Definition count_get (st : state) (url : string) : state :=
  {| dir := dir st; gets := S (gets st); trace := EvGet url :: trace st |}.

(** [unique_path(images_dir, filename).name] in the current directory. *)
Definition unique_name (st : state) (filename : string) : string :=
  Naming.unique_path (dom (dir st)) filename.


(** ** Exceptions *)

Inductive exn :=
| OSError (what : string).

Inductive outcome (A : Type) :=
| Returned (a : A)
| Raised (e : exn).
Arguments Returned {A} a.
Arguments Raised {A} e.

(** ** Fetching: HTTP download, data URLs *)

Module Fetch.
Import PyStr Url.

(** [r.raise_for_status()] raises for the client and server error statuses,
    400 to 599, and for no other status. *)
Definition raise_for_status (status : nat) : bool :=
  (400 <=? status) && (status <? 600).

(** An attempt that fails before any byte of the body is written: the GET
    itself raises, or the status is one [raise_for_status] rejects. *)
Definition failed_before_body (o : http_outcome) : bool :=
  match o with
  | TransportError => true
  | Response status _ _ _ => raise_for_status status
  end.

Section Fetcher.
Variable w : world.
(** The script's own [guess_ext_from_content_type]. *)
Variable guess_ext : option string → string.

(** The extension of the file name, from the response's Content-Type and the
    extension the URL implied. *)
Definition choose_ext (ct : option string) (ext_from_url : string) : string :=
  let ext := if truthy (guess_ext ct) then guess_ext ct else ext_from_url in
  if truthy ext_from_url && negb (bool_decide (ext_from_url = ".jpg"))
  then ext_from_url
  else ext.

(** The stem and the extension taken from the URL before any request. *)
Definition url_stem_ext (url : string) : string * string :=
  let '(stem, ext_from_url) :=
    guess_name_and_ext_from_url (urlparse_path w) url in
  let stem := sanitize_filename stem in
  let stem :=
    if in_list (lower stem) [""; "download"; "image"; "img"]
    then hash_stem (sha1 w url)
    else stem in
  (stem, ext_from_url).

(** One turn of the retry loop: [Some name] when the body was written in
    full, [None] when the attempt raised. A body that breaks off while being
    streamed leaves what was written of it. *)
Definition attempt (url stem ext_from_url : string) (st : state)
    : option string * state :=
  let st1 := count_get st url in
  match http_get w url (gets st) with
  | TransportError => (None, st1)
  | Response status ct chunks complete =>
      if raise_for_status status then (None, st1)
      else
        let fname := stem +:+ choose_ext ct ext_from_url in
        let out := unique_name st1 fname in
        if write_ok w out then
          let st2 := write_file out (Raw (String.concat "" chunks)) st1 in
          if complete then (Some out, st2) else (None, st2)
        else (None, st1)
  end.

Fixpoint attempts (n : nat) (url stem ext_from_url : string) (st : state)
    : string * state :=
  match n with
  | O => ("", log (EvWarn ("Failed to download " +:+ url)) st)
  | S n' =>
      match attempt url stem ext_from_url st with
      | (Some name, st') => (name, st')
      | (None, st') => attempts n' url stem ext_from_url st'
      end
  end.

(** [download_http_image(url, out_dir, timeout, retries)]: the saved file
    name, or "" when every attempt failed. *)
Definition download_http_image (url : string) (retries : Z) (st : state)
    : string * state :=
  let '(stem, ext_from_url) := url_stem_ext url in
  attempts (Z.to_nat retries) url stem ext_from_url st.

(** [re.match(r"data:(.*?)(;base64)?$", header)] on a header without line
    breaks: the media type and whether ";base64" ends the header. *)
Definition data_header (header : string) : option (string * bool) :=
  if startswith "data:" header then
    let rest := String.substring 5 (String.length header - 5) header in
    if endswith rest ";base64"
    then Some (take (String.length rest - 7) rest, true)
    else Some (rest, false)
  else None.

(** [save_data_url(data_url, out_dir, url_hash)]. *)
Definition save_data_url (data_url : string) (url_hash : string) (st : state)
    : string * state :=
  match partition "," data_url with
  | None => ("", st)
  | Some (header, b64data) =>
      let m := data_header header in
      let content_type := (λ g, strip whitespace (fst g)) <$> m in
      let is_b64 := from_option snd false m in
      let ext := guess_ext content_type in
      let stem := "img_" +:+ take 10 url_hash in
      let fname := sanitize_filename stem +:+ ext in
      let out := unique_name st fname in
      match (if is_b64 then b64decode w b64data else Some b64data) with
      | None => ("", st)
      | Some payload =>
          if write_ok w out then (out, write_file out (Raw payload) st)
          else ("", st)
      end
  end.

(** The branch of [process_csv] for a reference that is neither a data URL
    nor an HTTP(S) URL: an existing regular file is copied under a hashed
    name. Reading and writing are not guarded by the source. *)
Definition copy_local (url : string) (st : state) : outcome (string * state) :=
  match local_file w url with
  | NotAFile =>
      Returned ("", log (EvWarn ("Unsupported/invalid URL: " +:+ url)) st)
  | Unreadable => Raised (OSError "read_bytes")
  | Readable bytes =>
      let ext := if truthy (PyPath.suffix url) then PyPath.suffix url else ".jpg" in
      let stem := hash_stem (sha1 w (PyPath.to_str url)) in
      let dest := unique_name st (sanitize_filename stem +:+ ext) in
      if write_ok w dest then Returned (dest, write_file dest (Raw bytes) st)
      else Raised (OSError "write_bytes")
  end.

(** Classification and fetch of one reference, as in the body of the loop of
    [process_csv]. *)
Definition fetch (url : string) (retries : Z) (st : state)
    : outcome (string * state) :=
  if truthy url then
    if startswith "data:" url then
      Returned (save_data_url url (hexdigest (sha1 w url)) st)
    else if in_list (urlparse_scheme w url) ["http"; "https"] then
      Returned (download_http_image url retries st)
    else copy_local url st
  else Returned ("", st).

End Fetcher.
End Fetch.




(** ** PIL operations on a decoded image *)

Module Pil.
Import PyStr.

(** [ImageOps.exif_transpose]: for an orientation from 2 to 8 the pixels are
    flipped or rotated into place and the tag is removed; any other image is
    returned as it is. *)
Definition exif_transpose (im : image) : image :=
  if (2 <=? orientation im) && (orientation im <=? 8) then
    {| mode := mode im; transparency := transparency im;
       is_animated := is_animated im; frame := frame im; orientation := 0 |}
  else im.

(** [im.seek(0)]. *)
Definition seek0 (im : image) : image :=
  {| mode := mode im; transparency := transparency im;
     is_animated := is_animated im; frame := 0; orientation := orientation im |}.

(** [im.convert(m)]: the pixels are not moved. *)
Definition convert (m : string) (im : image) : image :=
  {| mode := m; transparency := transparency im;
     is_animated := is_animated im; frame := frame im;
     orientation := orientation im |}.

(** ["A" in im.getbands()]. *)
Definition has_alpha_band (im : image) : bool :=
  in_list (mode im) ["RGBA"; "LA"; "PA"; "RGBa"; "La"].

(** The test before compositing: an alpha mode, or a palette with a
    transparency entry. *)
Definition has_transparency (im : image) : bool :=
  in_list (mode im) ["RGBA"; "LA"]
  || (bool_decide (mode im = "P") && transparency im).

(** A new white RGB image of the same size with the image pasted through
    its alpha channel. *)
Definition composite_on_white (im : image) : image :=
  {| mode := "RGB"; transparency := false; is_animated := false;
     frame := frame im; orientation := orientation im |}.

(** The pixels are stored the way they are to be displayed. *)
Definition upright (im : image) : bool :=
  negb ((2 <=? orientation im) && (orientation im <=? 8)).

(** [Image.open] on a file of the images directory. *)
Definition open_image (w : world) (c : content) : option image :=
  match c with
  | Raw bytes => image_open w bytes
  | Encoded _ im => Some im
  end.

End Pil.

(** ** Format conversion: what the two converting scripts share *)

Module Convert.
Import PyStr Pil.

(** The destination of a conversion: the stem of the source with the target
    extension, lower-cased and without leading dots, made unique. *)
Definition destination (filename target_ext : string) (st : state) : string :=
  unique_name st
    (PyPath.stem filename +:+ "." +:+ lstrip "." (lower target_ext)).

(** Animated images are converted from their first frame. *)
Definition first_frame (im : image) : image :=
  if is_animated im then seek0 im else im.

Section Converter.
Variable w : world.
(** The preparation step of the script at hand, given the normalised target
    extension. *)
Variable prepare : string → image → string * image.

Definition warn_failed (filename : string) (st : state) : state :=
  log (EvWarn ("Failed to convert " +:+ filename)) st.

(** The body shared by [convert_format] and [convert_if_webp]: the existence
    test, the destination name, decoding, the first frame of an animation,
    encoding to the destination, then the removal of the source, whose
    failure is ignored. Any exception of decoding or encoding gives the
    original name back. *)
Definition convert_file (filename target_ext : string) (st : state)
    : string * state :=
  if negb (Naming.exists_in (dom (dir st)) filename) then (filename, st)
  else
    let dst := destination filename target_ext st in
    match dir st !! filename with
    | None => (filename, warn_failed filename st)
    | Some c =>
        match open_image w c with
        | None => (filename, warn_failed filename st)
        | Some im =>
            let '(fmt, im) :=
              prepare (lstrip "." (lower target_ext)) (first_frame im) in
            if encoder_ok w fmt im && write_ok w dst then
              let st1 := write_file dst (Encoded fmt im) st in
              let st2 := if unlink_ok w filename
                         then unlink_file filename st1 else st1 in
              (dst, st2)
            else (filename, warn_failed filename st)
        end
    end.

End Converter.

End Convert.




(** ** Tables and the batch loop *)

Module Table.
Import PyStr.

(** A row of [csv.DictReader]: field names and values, in column order. *)
Definition row := list (string * string).

Definition row_get (k : string) (r : row) : option string :=
  snd <$> List.find (λ p, bool_decide (fst p = k)) r.

Fixpoint row_set (k v : string) (r : row) : row :=
  match r with
  | [] => [(k, v)]
  | (k', v') :: r' =>
      if bool_decide (k' = k) then (k, v) :: r' else (k', v') :: row_set k v r'
  end.

(** [(row.get("url") or "").strip()] *)
Definition row_url (r : row) : string :=
  strip whitespace (default "" (row_get "url" r)).

(** A row of a pandas data frame: an empty cell is NaN, here [None]. *)
Definition frame_row := list (string * option string).

Definition frame_get (k : string) (r : frame_row) : option (option string) :=
  snd <$> List.find (λ p, bool_decide (fst p = k)) r.

Fixpoint frame_set (k : string) (v : string) (r : frame_row) : frame_row :=
  match r with
  | [] => [(k, Some v)]
  | (k', v') :: r' =>
      if bool_decide (k' = k) then (k, Some v) :: r'
      else (k', v') :: frame_set k v r'
  end.

(** [str(row.get("url", "") or "").strip()]: NaN is truthy and prints as
    "nan". *)
Definition frame_url (r : frame_row) : string :=
  strip whitespace
    match frame_get "url" r with
    | None => ""
    | Some None => "nan"
    | Some (Some s) => s
    end.

(** The [for] loop of [process_csv]: the rows in order; an exception of a
    row leaves the loop, and the output table, which is written after the
    loop, is not written. *)
Fixpoint process_rows {R : Type} (body : R → state → outcome (R * state))
    (rows : list R) (st : state) : outcome (list R * state) :=
  match rows with
  | [] => Returned ([], st)
  | r :: rows' =>
      match body r st with
      | Raised e => Raised e
      | Returned (r', st') =>
          match process_rows body rows' st' with
          | Raised e => Raised e
          | Returned (out, st'') => Returned (r' :: out, st'')
          end
      end
  end.

End Table.


(** ** downloadimages.py *)

Module DownloadImages.
Import PyStr ContentType Fetch Table.

(** [guess_ext_from_content_type]; [guess_extension] is
    [mimetypes.guess_extension]. *)
Definition guess_ext_from_content_type
    (guess_extension : string → option string) (ct : option string) : string :=
  match nonempty ct with
  | None => ".jpg"
  | Some ct =>
      match nonempty (guess_extension (media_type ct)) with
      | Some ext => if in_list ext jpeg_exts then ".jpg" else ext
      | None =>
          if startswith "image/" ct then
            let subtype := subtype_of ct in
            if in_list subtype ["jpeg"; "jpg"] then ".jpg"
            else if in_list subtype ["png"; "gif"; "webp"; "bmp"; "tiff"]
                 then "." +:+ subtype
                 else ".jpg"
          else ".jpg"
      end
  end.

(** The body of the loop of [process_csv]. *)
Definition process_row (w : world) (retries : Z) (r : row) (st : state)
    : outcome (row * state) :=
  match fetch w (guess_ext_from_content_type (guess_extension w))
          (row_url r) retries st with
  | Raised e => Raised e
  | Returned (saved_name, st') =>
      Returned (row_set "image_name" saved_name r, st')
  end.

(** [process_csv]: the rows of the output table and the final state, or the
    exception that ended the run. *)
Definition process_csv (w : world) (retries : Z) (rows : list row) (st : state)
    : outcome (list row * state) :=
  process_rows (process_row w retries) rows st.

End DownloadImages.


(** ** downloadimagesasjpg.py *)

Module DownloadImagesAsJpg.
Import PyStr ContentType Fetch Pil Convert Table.

(** [guess_ext_from_content_type]. *)
Definition guess_ext_from_content_type
    (guess_extension : string → option string) (ct : option string) : string :=
  match nonempty ct with
  | None => ".jpg"
  | Some ct =>
      let ext := guess_extension (media_type ct) in
      if opt_in ext jpeg_exts then ".jpg"
      else
        match nonempty ext with
        | Some e => e
        | None =>
            if startswith "image/" ct then
              let subtype := subtype_of ct in
              if in_list subtype ["jpeg"; "jpg"] then ".jpg"
              else "." +:+ subtype
            else ".jpg"
        end
  end.

(** What [convert_if_webp] hands to the encoder, between [Image.open] and
    [im.save]: the encoder's format name and the image. The format of the
    second branch is the one [im.save] takes from the extension of the
    destination. *)
Definition prepare_webp (target_ext : string) (im : image) : string * image :=
  if in_list target_ext ["jpg"; "jpeg"] then
    let im := if has_transparency im then composite_on_white im
              else convert "RGB" im in
    ("JPEG", im)
  else
    let im := if negb (in_list (mode im) ["RGB"; "RGBA"])
              then convert (if has_alpha_band im then "RGBA" else "RGB") im
              else im in
    (upper target_ext, im).

(** [convert_if_webp]. *)
Definition convert_if_webp (w : world) (filename target_ext : string)
    (st : state) : string * state :=
  if negb (endswith (lower filename) ".webp") then (filename, st)
  else convert_file w prepare_webp filename target_ext st.

(** The body of the loop of [process_csv]. *)
Definition process_row (w : world) (retries : Z) (convert_webp_to : string)
    (r : frame_row) (st : state) : outcome (frame_row * state) :=
  match fetch w (guess_ext_from_content_type (guess_extension w))
          (frame_url r) retries st with
  | Raised e => Raised e
  | Returned (saved_name, st') =>
      let '(saved_name, st'') :=
        if truthy saved_name && endswith (lower saved_name) ".webp"
           && truthy convert_webp_to
        then convert_if_webp w saved_name convert_webp_to st'
        else (saved_name, st') in
      Returned (frame_set "image_name" saved_name r, st'')
  end.

(** [process_csv]. *)
Definition process_csv (w : world) (retries : Z) (convert_webp_to : string)
    (rows : list frame_row) (st : state) : outcome (list frame_row * state) :=
  process_rows (process_row w retries convert_webp_to) rows st.

End DownloadImagesAsJpg.


(** ** downloadimagesasjpgforce.py *)

Module DownloadImagesAsJpgForce.
Import PyStr ContentType Fetch Pil Convert Table.

(** [guess_ext_from_content_type]: the text of downloadimagesasjpg.py. *)
Definition guess_ext_from_content_type
    (guess_extension : string → option string) (ct : option string) : string :=
  DownloadImagesAsJpg.guess_ext_from_content_type guess_extension ct.

(** What [_save_rgb_with_background] hands to the encoder for the format
    [fmt]: the encoder's format name and the image. *)
Definition prepare_rgb_with_background (fmt : string) (im : image)
    : string * image :=
  let fmt := upper fmt in
  if in_list fmt ["JPG"; "JPEG"] then
    let im := exif_transpose im in
    let im := if has_transparency im then composite_on_white im
              else convert "RGB" im in
    ("JPEG", im)
  else
    let im := exif_transpose im in
    let im := if negb (in_list (mode im) ["RGB"; "RGBA"])
              then convert (if has_alpha_band im then "RGBA" else "RGB") im
              else im in
    (fmt, im).

(** [convert_format]. *)
Definition convert_format (w : world) (filename target_ext : string)
    (st : state) : string * state :=
  convert_file w prepare_rgb_with_background filename target_ext st.

(** [maybe_convert_by_ext]. *)
Definition maybe_convert_by_ext (w : world) (filename : string)
    (convert_webp_to convert_heic_to force_format : string) (st : state)
    : string * state :=
  let lower_name := lower filename in
  if truthy force_format then convert_format w filename force_format st
  else if endswith lower_name ".webp" && truthy convert_webp_to then
    convert_format w filename convert_webp_to st
  else if (endswith lower_name ".heic" || endswith lower_name ".heif")
          && truthy convert_heic_to then
    if heif_available w then convert_format w filename convert_heic_to st
    else (filename,
          log (EvWarn "HEIC present but pillow-heif not installed") st)
  else (filename, st).

(** The body of the loop of [process_csv]. *)
Definition process_row (w : world) (retries : Z)
    (convert_webp_to convert_heic_to force_format : string)
    (r : frame_row) (st : state) : outcome (frame_row * state) :=
  match fetch w (guess_ext_from_content_type (guess_extension w))
          (frame_url r) retries st with
  | Raised e => Raised e
  | Returned (saved_name, st') =>
      let '(saved_name, st'') :=
        if truthy saved_name
        then maybe_convert_by_ext w saved_name
               convert_webp_to convert_heic_to force_format st'
        else (saved_name, st') in
      Returned (frame_set "image_name" saved_name r, st'')
  end.

(** [process_csv]. *)
Definition process_csv (w : world) (retries : Z)
    (convert_webp_to convert_heic_to force_format : string)
    (rows : list frame_row) (st : state) : outcome (list frame_row * state) :=
  process_rows
    (process_row w retries convert_webp_to convert_heic_to force_format)
    rows st.

End DownloadImagesAsJpgForce.


(** ** copy_images_to_events.py *)

Module CopyImagesToEvents.
Import PyStr.

Section Sanitize.
(** What [unicodedata.normalize("NFKD", ...)] followed by
    [encode("ascii", "ignore")] leaves of a character outside ASCII. *)
Variable decompose : ascii → string.

Definition is_ascii (a : ascii) : bool := nat_of_ascii a <? 128.

Fixpoint ascii_fold (s : string) : string :=
  match s with
  | "" => ""
  | String a s' =>
      (if is_ascii a then String a "" else decompose a) +:+ ascii_fold s'
  end.

(** The class [^A-Za-z0-9\-_ .]. *)
Definition illegal_char (a : ascii) : bool :=
  negb (PyRe.is_alnum a || eqb_ascii a "-" || eqb_ascii a "_"
        || eqb_ascii a " " || eqb_ascii a ".").

Definition space_or_dot (a : ascii) : bool :=
  eqb_ascii a " " || eqb_ascii a ".".

Definition is_underscore (a : ascii) : bool := eqb_ascii a "_".

(** The characters of a folder name: ASCII letters, digits, "-" and "_". *)
Definition folder_char (a : ascii) : bool :=
  PyRe.is_alnum a || eqb_ascii a "-" || eqb_ascii a "_".

(** [sanitize_name(name, max_len)]; [None] is Python's [None]. *)
Definition sanitize_name (name : option string) (max_len : nat) : string :=
  let name := default "" name in
  let name := ascii_fold name in
  let name := PyRe.sub_each illegal_char "_" name in
  let name := PyRe.sub_runs space_or_dot "_" false name in
  let name := PyRe.sub_runs (λ a, eqb_ascii a "_") "_" false name in
  let name := strip "_-" name in
  let name := if max_len <? String.length name
              then rstrip "_-" (take max_len name) else name in
  if truthy name then name else "unknown".

End Sanitize.

(** The table read by [pd.read_csv]. *)
Record table := {
  columns : list string;
  rows : list (list (string * option string))
}.

(** What [main] finds when it starts. *)
Record invocation := {
  csv_exists : bool;
  images_dir_exists : bool;
  read_csv : option table;              (* [None]: reading raises *)
  dry_run : bool;
  is_file : string → bool;              (* a file of that name in images_dir *)
  copy_ok : string → string → bool;     (* [shutil.copy2] succeeds *)
  decompose_char : ascii → string
}.

Inductive finish :=
| Exit (code : nat)
| Summary (copied missing : nat).

(** [{c.lower(): c for c in df.columns}]: for equal keys the last column
    wins. *)
Definition lower_index (cols : list string) : gmap string string :=
  list_to_map (reverse ((λ c, (lower c, c)) <$> cols)).

(** The check of the header: the columns used for the image and for the
    event, or [None] when [main] exits with status 1. *)
Definition required_columns (cols : list string) : option (string * string) :=
  let index := lower_index cols in
  if negb (bool_decide (is_Some (index !! "image_name")))
     || negb (bool_decide (is_Some (index !! "event")))
  then None
  else Some (default "" (index !! "image_name"), default "" (index !! "event")).

(** [str(row.get(col, "")).strip()] *)
Definition cell_text (col : string) (r : list (string * option string)) : string :=
  strip whitespace
    match snd <$> List.find (λ p, bool_decide (fst p = col)) r with
    | None => ""
    | Some None => "nan"
    | Some (Some s) => s
    end.

(** The loop over the rows: the counters and the copies made, latest
    first, as pairs of file name and event folder. *)
Fixpoint copy_rows (inv : invocation) (image_col event_col : string)
    (rs : list (list (string * option string)))
    (copied missing : nat) (done : list (string * string))
    : nat * nat * list (string * string) :=
  match rs with
  | [] => (copied, missing, done)
  | r :: rs' =>
      let raw_img := cell_text image_col r in
      let raw_evt := cell_text event_col r in
      if negb (truthy raw_img) then
        copy_rows inv image_col event_col rs' copied missing done
      else
        let src_basename := Url.basename raw_img in
        let evt_folder := sanitize_name (decompose_char inv) (Some raw_evt) 80 in
        if negb (is_file inv src_basename) then
          copy_rows inv image_col event_col rs' copied (S missing) done
        else if dry_run inv then
          copy_rows inv image_col event_col rs' (S copied) missing done
        else if copy_ok inv src_basename evt_folder then
          copy_rows inv image_col event_col rs' (S copied) missing
            ((src_basename, evt_folder) :: done)
        else
          copy_rows inv image_col event_col rs' copied missing done
  end.

(** [main]: how the run ends and the copies it made. *)
Definition main (inv : invocation) : finish * list (string * string) :=
  if negb (csv_exists inv) then (Exit 1, [])
  else if negb (images_dir_exists inv) then (Exit 1, [])
  else
    match read_csv inv with
    | None => (Exit 1, [])
    | Some t =>
        match required_columns (columns t) with
        | None => (Exit 1, [])
        | Some (image_col, event_col) =>
            let '(copied, missing, done) :=
              copy_rows inv image_col event_col (rows t) 0 0 [] in
            (Summary copied missing, done)
        end
    end.

End CopyImagesToEvents.


(** ** Concrete environments for the examples *)

Module Sample.
Import PyStr.

(** [urlparse] on URLs of the shape scheme://host/path?query#fragment. *)
Fixpoint after_authority (s : string) : string :=
  match s with
  | "" => ""
  | String a s' => if eqb_ascii a "/" then s else after_authority s'
  end.

Definition scheme_of (url : string) : string :=
  match partition ":" url with
  | Some (l, r) => if startswith "//" r then lower l else ""
  | None => ""
  end.

Definition path_of (url : string) : string :=
  match partition ":" url with
  | Some (l, r) =>
      if startswith "//" r
      then PyRe.cut_query (after_authority (String.substring 2 (String.length r - 2) r))
      else PyRe.cut_query url
  | None => PyRe.cut_query url
  end.

(** No network, no local files, a codec that knows no image. *)
Definition offline : world := {|
  sha1 := λ _, 0%N;
  urlparse_scheme := scheme_of;
  urlparse_path := path_of;
  guess_extension := ContentType.cpython_guess_extension;
  b64decode := λ s, Some s;
  http_get := λ _ _, TransportError;
  local_file := λ _, NotAFile;
  write_ok := λ _, true;
  image_open := λ _, None;
  encoder_ok := λ _ _, true;
  unlink_ok := λ _, true;
  heif_available := true
|}.

Definition with_http (h : string → nat → http_outcome) (w : world) : world := {|
  sha1 := sha1 w;
  urlparse_scheme := urlparse_scheme w;
  urlparse_path := urlparse_path w;
  guess_extension := guess_extension w;
  b64decode := b64decode w;
  http_get := h;
  local_file := local_file w;
  write_ok := write_ok w;
  image_open := image_open w;
  encoder_ok := encoder_ok w;
  unlink_ok := unlink_ok w;
  heif_available := heif_available w
|}.

Definition with_local (l : string → local_entry) (w : world) : world := {|
  sha1 := sha1 w;
  urlparse_scheme := urlparse_scheme w;
  urlparse_path := urlparse_path w;
  guess_extension := guess_extension w;
  b64decode := b64decode w;
  http_get := http_get w;
  local_file := l;
  write_ok := write_ok w;
  image_open := image_open w;
  encoder_ok := encoder_ok w;
  unlink_ok := unlink_ok w;
  heif_available := heif_available w
|}.

(** A server that answers 404 to every request. *)
Definition always_404 : world :=
  with_http (λ _ _, Response 404 (Some "text/html") [] true) offline.

(** A server whose every response breaks off after the first chunk. *)
Definition broken_stream : world :=
  with_http (λ _ _, Response 200 (Some "image/png") ["partial"] false) offline.

(** A server that answers 304 Not Modified, without a body. *)
Definition not_modified : world :=
  with_http (λ _ _, Response 304 None [] true) offline.

(** A server that sends a PNG declared as WEBP. *)
Definition mislabelled : world :=
  with_http (λ _ _, Response 200 (Some "image/webp") ["PNG"] true) offline.

Definition empty_state : state := {| dir := ∅; gets := 0; trace := [] |}.

(** A WEBP photograph taken with the camera turned: orientation 6. *)
Definition rotated : image :=
  {| mode := "RGB"; transparency := false; is_animated := false;
     frame := 0; orientation := 6 |}.

Definition rotated_webp_dir : state :=
  {| dir := {[ "a.webp" := Encoded "WEBP" rotated ]}; gets := 0; trace := [] |}.

(** A directory whose file "a.webp" is not an image. *)
Definition junk_webp_dir : state :=
  {| dir := {[ "a.webp" := Raw "not an image" ]}; gets := 0; trace := [] |}.

(** The source file cannot be removed. *)
Definition sticky : world := {|
  sha1 := sha1 offline;
  urlparse_scheme := urlparse_scheme offline;
  urlparse_path := urlparse_path offline;
  guess_extension := guess_extension offline;
  b64decode := b64decode offline;
  http_get := http_get offline;
  local_file := local_file offline;
  write_ok := write_ok offline;
  image_open := image_open offline;
  encoder_ok := encoder_ok offline;
  unlink_ok := λ _, false;
  heif_available := heif_available offline
|}.

(** A local file that exists and cannot be read. *)
Definition locked_file : world :=
  with_local (λ p, if bool_decide (p = "/data/locked.jpg") then Unreadable
                   else NotAFile) offline.

(** Two records: a local file that cannot be read, then an inline image. *)
Definition locked_then_inline : list Table.row :=
  [ [("url", "/data/locked.jpg"); ("caption", "first")];
    [("url", "data:image/png;base64,iVBORw=="); ("caption", "second")] ].

Definition locked_then_inline_frame : list Table.frame_row :=
  [ [("url", Some "/data/locked.jpg"); ("caption", Some "first")];
    [("url", Some "data:image/png;base64,iVBORw=="); ("caption", Some "second")] ].

(** A run of copy_images_to_events.py on a table with the given header and
    one row per image, every image present. *)
Definition foldering (header : list string) : CopyImagesToEvents.invocation := {|
  CopyImagesToEvents.csv_exists := true;
  CopyImagesToEvents.images_dir_exists := true;
  CopyImagesToEvents.read_csv :=
    Some {| CopyImagesToEvents.columns := header;
            CopyImagesToEvents.rows :=
              [ (λ c, (c, Some "a.jpg")) <$> header ] |};
  CopyImagesToEvents.dry_run := false;
  CopyImagesToEvents.is_file := λ _, true;
  CopyImagesToEvents.copy_ok := λ _ _, true;
  CopyImagesToEvents.decompose_char := λ _, ""
|}.

End Sample.
(** * Properties *)

(** ** Facts on strings *)

Module StrFacts.
Import PyStr.

Lemma app_nil_l (s : string) : "" +:+ s = s.
Proof. reflexivity. Qed.

Lemma app_cons a (s t : string) : String a s +:+ t = String a (s +:+ t).
Proof. reflexivity. Qed.

Lemma app_nil_r (s : string) : s +:+ "" = s.
Proof. induction s as [|a s IH]; [done | by rewrite app_cons, IH]. Qed.

Lemma app_assoc (s t u : string) : (s +:+ t) +:+ u = s +:+ t +:+ u.
Proof. induction s as [|a s IH]; [done | by rewrite !app_cons, IH]. Qed.

Lemma length_app (s t : string) :
  String.length (s +:+ t) = String.length s + String.length t.
Proof.
  induction s as [|a s IH]; [done |]. rewrite app_cons. simpl. by rewrite IH.
Qed.

Lemma app_inj_r (s1 s2 t : string) : s1 +:+ t = s2 +:+ t → s1 = s2.
Proof.
  revert s2. induction s1 as [|a s1 IH]; intros [|b s2] H.
  - done.
  - apply (f_equal String.length) in H.
    rewrite app_nil_l, app_cons in H. simpl in H.
    rewrite length_app in H. lia.
  - apply (f_equal String.length) in H.
    rewrite app_nil_l, app_cons in H. simpl in H.
    rewrite length_app in H. lia.
  - rewrite !app_cons in H. injection H as -> H. f_equal. by apply IH.
Qed.

Lemma contains_char_app c s t :
  contains_char c (s +:+ t) = contains_char c s || contains_char c t.
Proof.
  induction s as [|a s IH]; [done |].
  rewrite app_cons. simpl. rewrite IH. by rewrite orb_assoc.
Qed.

Lemma eqb_ascii_true a b : eqb_ascii a b = true ↔ a = b.
Proof. unfold eqb_ascii. by rewrite bool_decide_eq_true. Qed.

Lemma truthy_true s : truthy s = true ↔ s ≠ "".
Proof.
  unfold truthy. rewrite negb_true_iff, bool_decide_eq_false. done.
Qed.

Lemma all_chars_app P s t :
  all_chars P (s +:+ t) = all_chars P s && all_chars P t.
Proof.
  induction s as [|a s IH]; [done |].
  rewrite app_cons. simpl. rewrite IH. by rewrite andb_assoc.
Qed.

Lemma all_chars_impl (P Q : ascii → bool) s :
  (∀ a, P a = true → Q a = true) → all_chars P s = true → all_chars Q s = true.
Proof.
  intros HPQ. induction s as [|a s IH]; simpl; [done |].
  rewrite !andb_true_iff. intros [? ?]. auto.
Qed.

Lemma all_chars_rev_app P s t :
  all_chars P (String.rev_app s t) = all_chars P s && all_chars P t.
Proof.
  revert t. induction s as [|a s IH]; intros t; simpl; [done |].
  rewrite IH. simpl. destruct (P a), (all_chars P s); simpl; done.
Qed.

Lemma all_chars_rev P s : all_chars P (String.rev s) = all_chars P s.
Proof. unfold String.rev. rewrite all_chars_rev_app. simpl. apply andb_true_r. Qed.

Lemma all_chars_lstrip P cs s :
  all_chars P s = true → all_chars P (lstrip cs s) = true.
Proof.
  induction s as [|a s IH]; simpl; [done |].
  destruct (contains_char a cs); [| done].
  rewrite andb_true_iff. intros [_ ?]. auto.
Qed.

Lemma all_chars_strip P cs s :
  all_chars P s = true → all_chars P (strip cs s) = true.
Proof.
  intros H. unfold strip, rstrip.
  rewrite all_chars_rev. apply all_chars_lstrip.
  rewrite all_chars_rev. by apply all_chars_lstrip.
Qed.

Lemma all_chars_take P n s :
  all_chars P s = true → all_chars P (take n s) = true.
Proof.
  revert s. induction n as [|n IH]; intros [|a s]; simpl; try done.
  rewrite !andb_true_iff. intros [? ?]. auto.
Qed.

Lemma all_chars_lower P s :
  (∀ a, P a = true → P (lower_char a) = true) →
  all_chars P s = true → all_chars P (lower s) = true.
Proof.
  intros HP. induction s as [|a s IH]; simpl; [done |].
  rewrite !andb_true_iff. intros [? ?]. auto.
Qed.

Lemma all_chars_is_not c s :
  all_chars (is_not c) s = negb (contains_char c s).
Proof.
  induction s as [|a s IH]; simpl; [done |].
  rewrite IH. unfold is_not. by rewrite negb_orb.
Qed.

Lemma rpartition_parts P c s l r :
  rpartition c s = Some (l, r) → all_chars P s = true →
  all_chars P l = true ∧ all_chars P r = true.
Proof.
  revert l r. induction s as [|a s IH]; intros l r H; simpl in H; [done |].
  simpl. rewrite andb_true_iff. intros [Ha Hs].
  destruct (rpartition c s) as [[l' r'] |] eqn:E.
  - injection H as <- <-. destruct (IH l' r' eq_refl Hs) as [? ?].
    simpl. rewrite Ha. done.
  - destruct (eqb_ascii a c); [| done]. injection H as <- <-. done.
Qed.

Lemma rpartition_None c s :
  rpartition c s = None → all_chars (is_not c) s = true.
Proof.
  induction s as [|a s IH]; simpl; [done |].
  destruct (rpartition c s) as [[l' r'] |]; [done |].
  unfold is_not. destruct (eqb_ascii a c); [done |]. intros _. by apply IH.
Qed.

Lemma rpartition_right c s l r :
  rpartition c s = Some (l, r) → all_chars (is_not c) r = true.
Proof.
  revert l r. induction s as [|a s IH]; intros l r H; simpl in H; [done |].
  destruct (rpartition c s) as [[l' r'] |] eqn:E.
  - injection H as <- <-. by apply (IH l').
  - destruct (eqb_ascii a c); [| done]. injection H as <- <-.
    by apply rpartition_None.
Qed.

Lemma rpartition_app_right c l r :
  all_chars (is_not c) r = true → rpartition c (l +:+ String c r) = Some (l, r).
Proof.
  intros Hr. induction l as [|a l IH].
  - rewrite app_nil_l. simpl.
    assert (rpartition c r = None) as ->.
    { clear -Hr. induction r as [|b r IH]; simpl; [done |].
      simpl in Hr. apply andb_true_iff in Hr as [Hb Hr].
      rewrite (IH Hr). unfold is_not in Hb. apply negb_true_iff in Hb.
      by rewrite Hb. }
    assert (eqb_ascii c c = true) as -> by by apply eqb_ascii_true.
    done.
  - rewrite app_cons. simpl. by rewrite IH.
Qed.

Lemma split_no_sep c s :
  all_chars (is_not c) s = true → split c s = [s].
Proof.
  induction s as [|a s IH]; simpl; [done |].
  rewrite andb_true_iff. intros [Ha Hs]. unfold is_not in Ha.
  apply negb_true_iff in Ha. rewrite Ha, (IH Hs). done.
Qed.

End StrFacts.

(** ** [unique_path] returns the first free candidate *)

Module NamingFacts.
Import Naming.

Lemma exists_in_true dir n :
  exists_in dir n = true ↔ n = "" ∨ n = ".." ∨ n ∈ dir.
Proof. unfold exists_in. by rewrite bool_decide_eq_true. Qed.

Lemma exists_in_false dir n :
  exists_in dir n = false ↔ n ≠ "" ∧ n ≠ ".." ∧ n ∉ dir.
Proof. unfold exists_in. rewrite bool_decide_eq_false. tauto. Qed.

Lemma candidate_S_inj base ext i j :
  candidate base ext (S i) = candidate base ext (S j) → i = j.
Proof.
  unfold candidate. intros H.
  apply (inj (String.app base)) in H.
  apply (inj (String.app "-")) in H.
  apply StrFacts.app_inj_r in H.
  apply (inj pretty) in H. lia.
Qed.

Lemma candidate_S_dash base ext i :
  PyStr.contains_char "-" (candidate base ext (S i)) = true.
Proof.
  unfold candidate. rewrite !StrFacts.contains_char_app.
  change (PyStr.contains_char "-" "-") with true.
  by rewrite orb_true_r.
Qed.

Lemma candidate_S_exists dir base ext i :
  exists_in dir (candidate base ext (S i)) = true →
  candidate base ext (S i) ∈ dir.
Proof.
  intros H. apply exists_in_true in H as [H | [H | H]]; [| |done].
  - pose proof (candidate_S_dash base ext i) as D. by rewrite H in D.
  - pose proof (candidate_S_dash base ext i) as D. by rewrite H in D.
Qed.

(** Among the first [S (size dir)] numbered candidates one is free. *)
Lemma free_candidate dir base ext :
  ∃ j, j ≤ size dir ∧ exists_in dir (candidate base ext (S j)) = false.
Proof.
  destruct (decide (Forall (λ j, exists_in dir (candidate base ext (S j)) = true)
                           (seq 0 (S (size dir))))) as [Hall | Hex].
  - exfalso.
    set (l := (λ j, candidate base ext (S j)) <$> seq 0 (S (size dir))).
    assert (NoDup l) as Hnd.
    { apply NoDup_fmap_2_strong; [| apply NoDup_seq].
      intros i j _ _. apply candidate_S_inj. }
    assert (list_to_set l ⊆ dir) as Hsub.
    { intros x Hx. apply elem_of_list_to_set, list_elem_of_fmap in Hx
        as (j & -> & Hj).
      rewrite Forall_forall in Hall.
      by apply candidate_S_exists, Hall. }
    apply subseteq_size in Hsub.
    rewrite size_list_to_set in Hsub by done.
    unfold l in Hsub. rewrite length_fmap, length_seq in Hsub. lia.
  - apply not_Forall_Exists in Hex; [| intros j; apply _].
    apply Exists_exists in Hex as (j & Hj & Hf).
    apply elem_of_seq in Hj. exists j. split; [lia |].
    by apply not_true_is_false.
Qed.

(** The loop started at candidate [k] with enough fuel stops at the first
    free candidate from [k] on. *)
Lemma unique_loop_first dir base ext fuel k j :
  k ≤ j ≤ k + fuel →
  exists_in dir (candidate base ext j) = false →
  (∀ m, k ≤ m < j → exists_in dir (candidate base ext m) = true) →
  unique_loop dir base ext fuel (candidate base ext k) (S k)
  = candidate base ext j.
Proof.
  revert k. induction fuel as [|fuel IH]; intros k Hk Hfree Hbusy.
  - assert (j = k) as -> by lia. simpl. by rewrite Hfree.
  - simpl. destruct (exists_in dir (candidate base ext k)) eqn:E.
    + assert (k ≠ j) by (intros ->; congruence).
      apply (IH (S k)); [lia | done |].
      intros m Hm. apply Hbusy. lia.
    + destruct (decide (k = j)) as [-> | Hne]; [done |].
      rewrite Hbusy in E by lia. done.
Qed.

(** A least free candidate exists below any free one. *)
Lemma least_free (P : nat → bool) n :
  P n = false → ∃ j, j ≤ n ∧ P j = false ∧ ∀ m, m < j → P m = true.
Proof.
  induction n as [n IH] using lt_wf_ind. intros Hn.
  destruct (decide (Forall (λ m, P m = true) (seq 0 n))) as [Hall | Hex].
  - exists n. split; [lia |]. split; [done |].
    intros m Hm. rewrite Forall_forall in Hall.
    apply Hall, elem_of_seq. lia.
  - apply not_Forall_Exists in Hex; [| intros m; apply _].
    apply Exists_exists in Hex as (m & Hm & Hf).
    apply elem_of_seq in Hm.
    destruct (IH m) as (j & ? & ? & ?); [lia | by apply not_true_is_false |].
    exists j. split; [lia | done].
Qed.

Lemma unique_path_first dir filename :
  ∃ j, unique_path dir filename
       = candidate (PyPath.stem filename) (PyPath.suffix filename) j
     ∧ exists_in dir (unique_path dir filename) = false
     ∧ ∀ m, m < j →
         exists_in dir
           (candidate (PyPath.stem filename) (PyPath.suffix filename) m) = true.
Proof.
  set (base := PyPath.stem filename). set (ext := PyPath.suffix filename).
  destruct (free_candidate dir base ext) as (j0 & Hj0 & Hfree0).
  destruct (least_free (λ m, exists_in dir (candidate base ext m)) (S j0) Hfree0)
    as (j & Hj & Hfree & Hbusy).
  assert (unique_path dir filename = candidate base ext j) as Heq.
  { unfold unique_path. fold base ext.
    apply (unique_loop_first dir base ext (S (size dir)) 0 j); [lia | done |].
    intros m Hm. apply Hbusy. lia. }
  exists j. rewrite Heq. done.
Qed.

End NamingFacts.

Module NamingSpec.
Import Naming.

Lemma rpartition_app c s l r :
  PyStr.rpartition c s = Some (l, r) → s = l +:+ String c r.
Proof.
  revert l r. induction s as [|a s IH]; intros l r H; simpl in H; [done |].
  destruct (PyStr.rpartition c s) as [[l' r'] |] eqn:E.
  - injection H as <- <-. rewrite StrFacts.app_cons. f_equal. by apply IH.
  - destruct (PyStr.eqb_ascii a c) eqn:Ea; [| done].
    injection H as <- <-. apply StrFacts.eqb_ascii_true in Ea as ->. done.
Qed.

(** The stem and the suffix put together give the name back: the first
    candidate is the bare name. *)
Lemma stem_suffix_name n :
  PyPath.stem_of_name n +:+ PyPath.suffix_of_name n = n.
Proof.
  unfold PyPath.stem_of_name, PyPath.suffix_of_name.
  destruct (PyStr.rpartition "." n) as [[l r] |] eqn:E.
  - destruct (PyStr.truthy l && PyStr.truthy r).
    + symmetry. by apply rpartition_app.
    + apply StrFacts.app_nil_r.
  - apply StrFacts.app_nil_r.
Qed.

Lemma candidate_0_name filename :
  candidate (PyPath.stem filename) (PyPath.suffix filename) 0
  = PyPath.name filename.
Proof. apply stem_suffix_name. Qed.

Example unique_path_empty_dir : unique_path ∅ "a.jpg" = "a.jpg".
Proof. vm_compute. reflexivity. Qed.

Example unique_path_two_taken :
  unique_path {[ "a.jpg"; "a-1.jpg" ]} "a.jpg" = "a-2.jpg".
Proof. vm_compute. reflexivity. Qed.

Example unique_path_gap :
  unique_path {[ "a.jpg"; "a-2.jpg" ]} "a.jpg" = "a-1.jpg".
Proof. vm_compute. reflexivity. Qed.

(** C7: for every snapshot of the directory and every file name,
    [unique_path] returns a name that does not exist in the snapshot, and it
    is the first such name in the order bare name, stem-1, stem-2, ...: all
    candidates before it exist. The result is a function of the snapshot
    and the name. On an empty directory "a.jpg" is returned for "a.jpg";
    with "a.jpg" and "a-1.jpg" present, "a-2.jpg" is. *)
Theorem unique_path_first_free (dir : gset string) (filename : string) :
  (unique_path dir filename ∉ dir)
  ∧ exists_in dir (unique_path dir filename) = false
  ∧ (∃ k, unique_path dir filename
          = candidate (PyPath.stem filename) (PyPath.suffix filename) k
        ∧ ∀ m, m < k →
            exists_in dir
              (candidate (PyPath.stem filename) (PyPath.suffix filename) m)
            = true)
  ∧ candidate (PyPath.stem filename) (PyPath.suffix filename) 0
    = PyPath.name filename
  ∧ candidate (PyPath.stem filename) (PyPath.suffix filename) 1
    = PyPath.stem filename +:+ "-1" +:+ PyPath.suffix filename
  ∧ candidate (PyPath.stem filename) (PyPath.suffix filename) 2
    = PyPath.stem filename +:+ "-2" +:+ PyPath.suffix filename
  ∧ unique_path ∅ "a.jpg" = "a.jpg"
  ∧ unique_path {[ "a.jpg"; "a-1.jpg" ]} "a.jpg" = "a-2.jpg".
Proof.
  destruct (NamingFacts.unique_path_first dir filename) as (k & Hk & Hfree & Hbusy).
  split.
  { apply NamingFacts.exists_in_false in Hfree. tauto. }
  split; [done |]. split; [by exists k |].
  split; [apply candidate_0_name |].
  split; [done |]. split; [done |].
  split; [apply unique_path_empty_dir | apply unique_path_two_taken].
Qed.

End NamingSpec.

(** ** Extension inference from the Content-Type header *)

Module ContentTypeSpec.
Import PyStr ContentType.

Example ct_png_table :
  DownloadImages.guess_ext_from_content_type cpython_guess_extension (Some "image/png") = ".png".
Proof. vm_compute. reflexivity. Qed.

Example ct_jpeg_params :
  DownloadImagesAsJpg.guess_ext_from_content_type cpython_guess_extension
    (Some "image/jpeg; charset=binary") = ".jpg".
Proof. vm_compute. reflexivity. Qed.

Example ct_html_table :
  DownloadImages.guess_ext_from_content_type cpython_guess_extension
    (Some "text/html; charset=utf-8") = ".html".
Proof. vm_compute. reflexivity. Qed.

Lemma in_list_true s l : in_list s l = true ↔ s ∈ l.
Proof. unfold in_list. by rewrite bool_decide_eq_true. Qed.

Lemma in_list_false s l : in_list s l = false ↔ s ∉ l.
Proof. unfold in_list. by rewrite bool_decide_eq_false. Qed.

Lemma nonempty_Some s : s ≠ "" → nonempty (Some s) = Some s.
Proof.
  intros H. unfold nonempty.
  by apply StrFacts.truthy_true in H as ->.
Qed.

Lemma startswith_image sub : startswith "image/" ("image/" +:+ sub) = true.
Proof. reflexivity. Qed.

Lemma subtype_of_image sub : subtype_of ("image/" +:+ sub) = sub.
Proof. reflexivity. Qed.

Lemma image_nonempty sub : "image/" +:+ sub ≠ "".
Proof. done. Qed.

(** When the MIME table has no extension for the media type, a header
    "image/<subtype>" is mapped by the subtype. *)
Lemma table_miss_image ge sub :
  nonempty (ge (media_type ("image/" +:+ sub))) = None →
  (sub ∈ ["jpeg"; "jpg"] →
     DownloadImages.guess_ext_from_content_type ge (Some ("image/" +:+ sub)) = ".jpg"
     ∧ DownloadImagesAsJpg.guess_ext_from_content_type ge (Some ("image/" +:+ sub)) = ".jpg")
  ∧ (sub ∈ ["png"; "gif"; "webp"; "bmp"; "tiff"] →
     DownloadImages.guess_ext_from_content_type ge (Some ("image/" +:+ sub)) = "." +:+ sub
     ∧ DownloadImagesAsJpg.guess_ext_from_content_type ge (Some ("image/" +:+ sub)) = "." +:+ sub)
  ∧ (sub ∉ ["jpeg"; "jpg"; "png"; "gif"; "webp"; "bmp"; "tiff"] →
     DownloadImages.guess_ext_from_content_type ge (Some ("image/" +:+ sub)) = ".jpg"
     ∧ DownloadImagesAsJpg.guess_ext_from_content_type ge (Some ("image/" +:+ sub)) = "." +:+ sub).
Proof.
  intros Hmiss.
  assert (opt_in (ge (media_type ("image/" +:+ sub))) jpeg_exts = false) as Hj.
  { unfold nonempty in Hmiss. unfold opt_in.
    destruct (ge _) as [e |]; [| done].
    destruct (truthy e) eqn:E; [done |].
    unfold truthy in E. apply negb_false_iff, bool_decide_eq_true in E as ->.
    done. }
  unfold DownloadImages.guess_ext_from_content_type,
    DownloadImagesAsJpg.guess_ext_from_content_type.
  rewrite (nonempty_Some _ (image_nonempty sub)).
  cbv zeta. rewrite Hmiss, Hj, startswith_image, subtype_of_image.
  split; [| split].
  - intros H. apply in_list_true in H as ->. done.
  - intros H.
    assert (sub ∉ ["jpeg"; "jpg"]) as Hn.
    { repeat (apply elem_of_cons in H as [-> | H]);
        [by apply in_list_false; vm_compute .. | by apply elem_of_nil in H]. }
    apply in_list_false in Hn as ->. apply in_list_true in H as ->. done.
  - intros H.
    assert (sub ∉ ["jpeg"; "jpg"]) as Hn1.
    { intros Hin. apply H. rewrite !elem_of_cons in *. tauto. }
    assert (sub ∉ ["png"; "gif"; "webp"; "bmp"; "tiff"]) as Hn2.
    { intros Hin. apply H. rewrite !elem_of_cons in *. tauto. }
    apply in_list_false in Hn1 as ->. apply in_list_false in Hn2 as ->. done.
Qed.

(** When the MIME table has an extension for the media type, that
    extension is returned (the JPEG spellings as ".jpg"), whatever the
    type is. *)
Lemma table_hit ge ct e :
  ct ≠ "" → e ≠ "" → ge (media_type ct) = Some e →
  DownloadImages.guess_ext_from_content_type ge (Some ct)
    = (if in_list e jpeg_exts then ".jpg" else e)
  ∧ DownloadImagesAsJpg.guess_ext_from_content_type ge (Some ct)
    = (if in_list e jpeg_exts then ".jpg" else e).
Proof.
  intros Hct He Hge.
  unfold DownloadImages.guess_ext_from_content_type,
    DownloadImagesAsJpg.guess_ext_from_content_type.
  rewrite (nonempty_Some _ Hct). cbv zeta. rewrite Hge.
  rewrite (nonempty_Some _ He). unfold opt_in.
  by destruct (in_list e jpeg_exts).
Qed.

Lemma table_miss_other ge ct :
  nonempty (ge (media_type ct)) = None → startswith "image/" ct = false →
  DownloadImages.guess_ext_from_content_type ge (Some ct) = ".jpg"
  ∧ DownloadImagesAsJpg.guess_ext_from_content_type ge (Some ct) = ".jpg".
Proof.
  intros Hmiss Hst.
  unfold DownloadImages.guess_ext_from_content_type,
    DownloadImagesAsJpg.guess_ext_from_content_type.
  unfold nonempty at 1 3. destruct (truthy ct); [| done].
  cbv zeta. rewrite Hmiss, Hst.
  unfold nonempty in Hmiss. unfold opt_in.
  destruct (ge (media_type ct)) as [e |]; [| done].
  destruct (truthy e) eqn:E; [done |].
  unfold truthy in E. apply negb_false_iff, bool_decide_eq_true in E as ->.
  done.
Qed.

(** C4, as the code has it: an absent or empty header gives ".jpg"; a media
    type known to the MIME table gives the table's extension, with the JPEG
    spellings normalised to ".jpg", also when the type is not an image
    type; a header "image/<subtype>" unknown to the table gives ".jpg" for
    jpeg and jpg and the dotted subtype for png, gif, webp, bmp and tiff,
    and for any other subtype ".jpg" in downloadimages.py but the dotted
    subtype in the two converting scripts; every other header unknown to
    the table gives ".jpg". *)
Theorem guess_ext_from_content_type_cases
    (ge : string → option string) (ct e sub : string) :
  (DownloadImages.guess_ext_from_content_type ge None = ".jpg"
   ∧ DownloadImages.guess_ext_from_content_type ge (Some "") = ".jpg"
   ∧ DownloadImagesAsJpg.guess_ext_from_content_type ge None = ".jpg"
   ∧ DownloadImagesAsJpg.guess_ext_from_content_type ge (Some "") = ".jpg")
  ∧ (ct ≠ "" → e ≠ "" → ge (media_type ct) = Some e →
     DownloadImages.guess_ext_from_content_type ge (Some ct)
       = (if in_list e jpeg_exts then ".jpg" else e)
     ∧ DownloadImagesAsJpg.guess_ext_from_content_type ge (Some ct)
       = (if in_list e jpeg_exts then ".jpg" else e))
  ∧ (nonempty (ge (media_type ("image/" +:+ sub))) = None →
     (sub ∈ ["jpeg"; "jpg"] →
        DownloadImages.guess_ext_from_content_type ge (Some ("image/" +:+ sub)) = ".jpg"
        ∧ DownloadImagesAsJpg.guess_ext_from_content_type ge (Some ("image/" +:+ sub)) = ".jpg")
     ∧ (sub ∈ ["png"; "gif"; "webp"; "bmp"; "tiff"] →
        DownloadImages.guess_ext_from_content_type ge (Some ("image/" +:+ sub)) = "." +:+ sub
        ∧ DownloadImagesAsJpg.guess_ext_from_content_type ge (Some ("image/" +:+ sub)) = "." +:+ sub)
     ∧ (sub ∉ ["jpeg"; "jpg"; "png"; "gif"; "webp"; "bmp"; "tiff"] →
        DownloadImages.guess_ext_from_content_type ge (Some ("image/" +:+ sub)) = ".jpg"
        ∧ DownloadImagesAsJpg.guess_ext_from_content_type ge (Some ("image/" +:+ sub))
          = "." +:+ sub))
  ∧ (nonempty (ge (media_type ct)) = None → startswith "image/" ct = false →
     DownloadImages.guess_ext_from_content_type ge (Some ct) = ".jpg"
     ∧ DownloadImagesAsJpg.guess_ext_from_content_type ge (Some ct) = ".jpg").
Proof.
  split; [done |]. split; [apply table_hit |].
  split; [apply table_miss_image | apply table_miss_other].
Qed.

(** The cases at "application/pdf" (known to the table as ".pdf") and at
    "image/png" when the table does not know it. *)
Lemma guess_ext_from_content_type_cases_witness :
  DownloadImages.guess_ext_from_content_type cpython_guess_extension
    (Some "application/pdf") = ".pdf"
  ∧ DownloadImagesAsJpg.guess_ext_from_content_type (λ _, None) (Some "image/png") = ".png".
Proof.
  split.
  - refine (proj1 (proj1 (proj2 (guess_ext_from_content_type_cases
      cpython_guess_extension "application/pdf" ".pdf" "png")) _ _ _)).
    + done.
    + done.
    + vm_compute. reflexivity.
  - refine (proj2 (proj1 (proj2 (proj1 (proj2 (proj2
      (guess_ext_from_content_type_cases (λ _, None) "x" ".x" "png"))) _)) _)).
    + reflexivity.
    + constructor.
Defined.

(** C4 as stated fails: a PDF media type is given the extension ".pdf",
    not the default, by all three scripts, and an image subtype unknown to
    the table is given its own dotted name by the two converting
    scripts. *)
Lemma guess_ext_not_always_image_default :
  DownloadImages.guess_ext_from_content_type cpython_guess_extension
    (Some "application/pdf") = ".pdf"
  ∧ DownloadImagesAsJpg.guess_ext_from_content_type cpython_guess_extension
    (Some "application/pdf") = ".pdf"
  ∧ DownloadImagesAsJpg.guess_ext_from_content_type cpython_guess_extension
    (Some "image/x-unknown") = ".x-unknown"
  ∧ ".pdf" ≠ ".jpg" ∧ ".x-unknown" ≠ ".jpg".
Proof. vm_compute. repeat split; done. Qed.

End ContentTypeSpec.


(** ** The retry loop of [download_http_image] *)

Module FetchSpec.
Import PyStr Url Fetch.

Example download_404 :
  download_http_image Sample.always_404
    (DownloadImages.guess_ext_from_content_type ContentType.cpython_guess_extension)
    "https://example.org/a/photo.png?x=1" 3 Sample.empty_state
  = ("", {| dir := ∅; gets := 3;
            trace := [EvWarn "Failed to download https://example.org/a/photo.png?x=1";
                      EvGet "https://example.org/a/photo.png?x=1";
                      EvGet "https://example.org/a/photo.png?x=1";
                      EvGet "https://example.org/a/photo.png?x=1"] |}).
Proof. vm_compute. reflexivity. Qed.

Example download_mislabelled :
  fst (download_http_image Sample.mislabelled
    (DownloadImages.guess_ext_from_content_type ContentType.cpython_guess_extension)
    "https://example.org/a/photo.png?x=1" 3 Sample.empty_state)
  = "photo.png".
Proof. vm_compute. reflexivity. Qed.

Lemma unique_name_nonempty st filename : unique_name st filename ≠ "".
Proof.
  unfold unique_name.
  destruct (NamingFacts.unique_path_first (dom (dir st)) filename)
    as (_ & _ & Hfree & _).
  apply NamingFacts.exists_in_false in Hfree. tauto.
Qed.

Lemma unique_name_fresh st filename : dir st !! unique_name st filename = None.
Proof.
  unfold unique_name.
  destruct (NamingFacts.unique_path_first (dom (dir st)) filename)
    as (_ & _ & Hfree & _).
  apply NamingFacts.exists_in_false in Hfree as (_ & _ & Hnot).
  by apply not_elem_of_dom.
Qed.

Section Retry.
Variable w : world.
Variable guess_ext : option string → string.

Lemma attempt_failed url stem ext st :
  failed_before_body (http_get w url (gets st)) = true →
  attempt w guess_ext url stem ext st = (None, count_get st url).
Proof.
  unfold attempt, failed_before_body.
  destruct (http_get w url (gets st)) as [| status ct chunks complete].
  - done.
  - by intros ->.
Qed.

Lemma attempt_gets url stem ext st :
  gets (snd (attempt w guess_ext url stem ext st)) = S (gets st).
Proof.
  unfold attempt.
  destruct (http_get w url (gets st)) as [| status ct chunks complete]; [done |].
  destruct (raise_for_status status); [done |].
  destruct (write_ok w _); [| done].
  by destruct complete.
Qed.

Lemma attempt_name url stem ext st name st' :
  attempt w guess_ext url stem ext st = (Some name, st') → name ≠ "".
Proof.
  unfold attempt.
  destruct (http_get w url (gets st)) as [| status ct chunks complete]; [done |].
  destruct (raise_for_status status); [done |].
  destruct (write_ok w _); [| done].
  destruct complete; [| done].
  intros [= <- _]. apply unique_name_nonempty.
Qed.

Lemma replicate_snoc {A} n (x : A) l :
  (replicate n x ++ x :: l = x :: replicate n x ++ l)%list.
Proof. induction n as [|n IH]; simpl; [done | by rewrite IH]. Qed.

Lemma attempts_all_failed n url stem ext st :
  (∀ k, k < n → failed_before_body (http_get w url (gets st + k)) = true) →
  attempts w guess_ext n url stem ext st
  = ("", {| dir := dir st; gets := gets st + n;
            trace := EvWarn ("Failed to download " +:+ url)
                     :: (replicate n (EvGet url) ++ trace st)%list |}).
Proof.
  revert st. induction n as [|n IH]; intros st Hall.
  - simpl. unfold log. by rewrite Nat.add_0_r.
  - simpl. rewrite attempt_failed.
    2:{ specialize (Hall 0). rewrite Nat.add_0_r in Hall. apply Hall. lia. }
    rewrite IH.
    + simpl. rewrite replicate_snoc. do 3 f_equal. lia.
    + intros k Hk. simpl. replace (S (gets st + k)) with (gets st + S k) by lia.
      apply Hall. lia.
Qed.

Lemma attempts_empty_exhausted n url stem ext st :
  fst (attempts w guess_ext n url stem ext st) = "" →
  gets (snd (attempts w guess_ext n url stem ext st)) = gets st + n.
Proof.
  revert st. induction n as [|n IH]; intros st.
  - simpl. intros _. lia.
  - simpl. pose proof (attempt_gets url stem ext st) as Hg.
    destruct (attempt w guess_ext url stem ext st) as [[name |] st'] eqn:E.
    + simpl. intros ->. by apply attempt_name in E.
    + intros H. rewrite (IH _ H). simpl in Hg. lia.
Qed.

Lemma attempt_success url stem ext st name st' :
  attempt w guess_ext url stem ext st = (Some name, st') →
  ∃ ct, name = unique_name (count_get st url)
                 (stem +:+ choose_ext guess_ext ct ext)
        ∧ is_Some (dir st' !! name).
Proof.
  unfold attempt.
  destruct (http_get w url (gets st)) as [| status ct chunks complete]; [done |].
  destruct (raise_for_status status); [done |].
  destruct (write_ok w _); [| done].
  destruct complete; [| done].
  intros [= <- <-]. exists ct. split; [done |].
  simpl. rewrite lookup_insert_eq. by eexists.
Qed.

Lemma attempts_success n url stem ext st name st' :
  attempts w guess_ext n url stem ext st = (name, st') → name ≠ "" →
  ∃ st1 ct, name = unique_name st1 (stem +:+ choose_ext guess_ext ct ext)
            ∧ is_Some (dir st' !! name).
Proof.
  revert st. induction n as [|n IH]; intros st; simpl.
  - intros [= <- _]. done.
  - destruct (attempt w guess_ext url stem ext st) as [[name1 |] st1] eqn:E.
    + intros [= <- <-] _.
      apply attempt_success in E as (ct & ? & ?). by exists (count_get st url), ct.
    + apply IH.
Qed.

End Retry.

(** C3, as the code has it: when each of the [retries] GET attempts fails
    before the body is written (the request raises, or the status is a 4xx or
    5xx one, which [raise_for_status] rejects), the download makes exactly
    [retries] requests, returns the empty name, warns once and leaves the
    directory as it was; and whenever the empty name is returned, all
    [retries] requests have been made. *)
Theorem download_fails_after_all_attempts
    (w : world) (guess_ext : option string → string)
    (url : string) (retries : Z) (st : state) :
  ((∀ k, k < Z.to_nat retries →
      failed_before_body (http_get w url (gets st + k)) = true) →
   download_http_image w guess_ext url retries st
   = ("", {| dir := dir st; gets := gets st + Z.to_nat retries;
             trace := EvWarn ("Failed to download " +:+ url)
                      :: (replicate (Z.to_nat retries) (EvGet url) ++ trace st)%list |}))
  ∧ (fst (download_http_image w guess_ext url retries st) = "" →
     gets (snd (download_http_image w guess_ext url retries st))
     = gets st + Z.to_nat retries)
  ∧ (∀ status ct chunks complete,
       failed_before_body (Response status ct chunks complete) = true
       ↔ 400 ≤ status < 600).
Proof.
  unfold download_http_image.
  destruct (url_stem_ext w url) as [stem ext].
  split; [apply attempts_all_failed |].
  split; [apply attempts_empty_exhausted |].
  intros status ct chunks complete. simpl. unfold raise_for_status.
  rewrite andb_true_iff, Nat.leb_le, Nat.ltb_lt. done.
Qed.

(** Three 404 answers: three requests, the empty name, no file. *)
Lemma download_fails_after_all_attempts_witness :
  download_http_image Sample.always_404
    (DownloadImages.guess_ext_from_content_type ContentType.cpython_guess_extension)
    "https://example.org/a/photo.png" 3 Sample.empty_state
  = ("", {| dir := ∅; gets := 3;
            trace := [EvWarn "Failed to download https://example.org/a/photo.png";
                      EvGet "https://example.org/a/photo.png";
                      EvGet "https://example.org/a/photo.png";
                      EvGet "https://example.org/a/photo.png"] |}).
Proof.
  apply (proj1 (download_fails_after_all_attempts Sample.always_404
    (DownloadImages.guess_ext_from_content_type ContentType.cpython_guess_extension)
    "https://example.org/a/photo.png" 3 Sample.empty_state)).
  intros k Hk. reflexivity.
Defined.

(** C3 as stated fails: when every attempt breaks off while the body is
    streamed, three requests are made and the empty name is returned, but
    three partial files are left under the intended stem; and a 304 answer,
    which is not a 2xx status, is not a failed attempt: the file is written
    and its name returned after one request. *)
Lemma download_failure_leaves_files :
  (let r := download_http_image Sample.broken_stream
      (DownloadImages.guess_ext_from_content_type ContentType.cpython_guess_extension)
      "https://example.org/a/photo.png" 3 Sample.empty_state in
   fst r = "" ∧ gets (snd r) = 3
   ∧ dir (snd r) = {[ "photo.png" := Raw "partial";
                      "photo-1.png" := Raw "partial";
                      "photo-2.png" := Raw "partial" ]})
  ∧ (let r := download_http_image Sample.not_modified
      (DownloadImages.guess_ext_from_content_type ContentType.cpython_guess_extension)
      "https://example.org/a/photo.png" 3 Sample.empty_state in
   fst r = "photo.png" ∧ gets (snd r) = 1
   ∧ dir (snd r) = {[ "photo.png" := Raw "" ]}).
Proof. vm_compute. repeat split; reflexivity. Qed.

End FetchSpec.


(** ** The stem and the extension taken from a URL *)

Module UrlFacts.
Import PyStr Url.

Lemma lower_char_slash a :
  is_not "/" a = true → is_not "/" (lower_char a) = true.
Proof. destruct a as [[] [] [] [] [] [] [] []]; vm_compute; done. Qed.

Lemma lower_char_dot a :
  is_not "." a = true → is_not "." (lower_char a) = true.
Proof. destruct a as [[] [] [] [] [] [] [] []]; vm_compute; done. Qed.

Lemma truthy_false s : truthy s = false ↔ s = "".
Proof.
  unfold truthy. rewrite negb_false_iff, bool_decide_eq_true. done.
Qed.

Lemma basename_no_slash p : all_chars (is_not "/") (basename p) = true.
Proof.
  unfold basename. destruct (rpartition "/" p) as [[l r] |] eqn:E.
  - by apply StrFacts.rpartition_right in E.
  - by apply StrFacts.rpartition_None.
Qed.

Lemma cut_query_chars P s :
  all_chars P s = true → all_chars P (PyRe.cut_query s) = true.
Proof.
  induction s as [|a s IH]; simpl; [done |].
  rewrite andb_true_iff. intros [Ha Hs].
  destruct (eqb_ascii a "?" || eqb_ascii a "#"); [done |].
  simpl. rewrite Ha. auto.
Qed.

(** The extension implied by a URL is a dot followed by text without dot or
    slash. *)
Lemma guess_ext_shape urlparse_path url :
  ∃ e, snd (guess_name_and_ext_from_url urlparse_path url) = String "." e
       ∧ all_chars (is_not ".") e = true
       ∧ all_chars (is_not "/") e = true.
Proof.
  unfold guess_name_and_ext_from_url.
  set (path := urlparse_path url).
  destruct (truthy (basename path)); simpl; [| by exists "jpg"].
  pose proof (cut_query_chars _ _ (basename_no_slash path)) as Hname.
  destruct (rpartition "." (PyRe.cut_query (basename path))) as [[l r] |] eqn:E;
    simpl; [| by exists "jpg"].
  destruct (in_list (lower r) ["jpeg"; "jpe"; "jpg"]); [by exists "jpg" |].
  exists (lower r). split; [done |]. split.
  - apply StrFacts.all_chars_lower; [apply lower_char_dot |].
    by apply StrFacts.rpartition_right in E.
  - apply StrFacts.all_chars_lower; [apply lower_char_slash |].
    by apply (StrFacts.rpartition_parts _ _ _ _ _ E).
Qed.

Lemma unsafe_char_slash a : unsafe_char a = false → is_not "/" a = true.
Proof. destruct a as [[] [] [] [] [] [] [] []]; vm_compute; done. Qed.

Lemma sub_runs_no_slash b s :
  all_chars (is_not "/") (PyRe.sub_runs unsafe_char "_" b s) = true.
Proof.
  revert b. induction s as [|a s IH]; intros b; simpl; [done |].
  destruct (unsafe_char a) eqn:E.
  - destruct b; [apply IH |].
    rewrite StrFacts.all_chars_app, IH. done.
  - simpl. rewrite (unsafe_char_slash _ E), IH. done.
Qed.

Lemma sanitize_filename_no_slash s :
  all_chars (is_not "/") (sanitize_filename s) = true.
Proof.
  unfold sanitize_filename.
  destruct (truthy _); [| done].
  apply StrFacts.all_chars_strip, sub_runs_no_slash.
Qed.

Lemma sanitize_filename_nonempty s : sanitize_filename s ≠ "".
Proof.
  unfold sanitize_filename.
  destruct (truthy _) eqn:E; [| done].
  by apply StrFacts.truthy_true.
Qed.

Lemma hex_char_no_slash d : is_not "/" (hex_char d) = true.
Proof.
  unfold hex_char. destruct d as [| p]; [done |].
  do 4 (try destruct p as [p | p |]; try done).
Qed.

Lemma hex_digits_no_slash n x acc :
  all_chars (is_not "/") acc = true →
  all_chars (is_not "/") (hex_digits n x acc) = true.
Proof.
  revert x acc. induction n as [|n IH]; intros x acc H; simpl; [done |].
  apply IH. simpl. by rewrite hex_char_no_slash, H.
Qed.

Lemma hash_stem_no_slash d : all_chars (is_not "/") (hash_stem d) = true.
Proof.
  unfold hash_stem. rewrite StrFacts.all_chars_app.
  rewrite StrFacts.all_chars_take; [done |].
  by apply hex_digits_no_slash.
Qed.

Lemma hash_stem_nonempty d : hash_stem d ≠ "".
Proof. done. Qed.

Lemma name_single s :
  all_chars (is_not "/") s = true → s ≠ "" → s ≠ "." → PyPath.name s = s.
Proof.
  intros Hs H1 H2. unfold PyPath.name.
  rewrite (StrFacts.split_no_sep _ _ Hs).
  rewrite filter_cons_True by done. done.
Qed.

Lemma stem_suffix_of x e :
  x ≠ "" → e ≠ "" → all_chars (is_not ".") e = true →
  PyPath.stem_of_name (x +:+ String "." e) = x
  ∧ PyPath.suffix_of_name (x +:+ String "." e) = String "." e.
Proof.
  intros Hx He Hdot.
  unfold PyPath.stem_of_name, PyPath.suffix_of_name.
  rewrite (StrFacts.rpartition_app_right _ _ _ Hdot).
  apply StrFacts.truthy_true in Hx as ->.
  apply StrFacts.truthy_true in He as ->. done.
Qed.

(** A name made of a non-empty stem and a proper extension is split by
    [pathlib] at that extension. *)
Lemma path_stem_suffix x e :
  x ≠ "" → e ≠ "" →
  all_chars (is_not "/") x = true → all_chars (is_not "/") e = true →
  all_chars (is_not ".") e = true →
  PyPath.stem (x +:+ String "." e) = x
  ∧ PyPath.suffix (x +:+ String "." e) = String "." e.
Proof.
  intros Hx He Hsx Hse Hdot. unfold PyPath.stem, PyPath.suffix.
  rewrite name_single.
  - by apply stem_suffix_of.
  - rewrite StrFacts.all_chars_app. simpl. by rewrite Hsx, Hse.
  - destruct x; done.
  - destruct x as [|a [|b x]]; [done | |done].
    rewrite StrFacts.app_cons, StrFacts.app_nil_l. done.
Qed.

End UrlFacts.


(** ** The extension of a downloaded file *)

Module DownloadNaming.
Import PyStr Url Fetch Naming.

Lemma choose_ext_url guess ct ext_from_url :
  ext_from_url ≠ "" → ext_from_url ≠ ".jpg" →
  choose_ext guess ct ext_from_url = ext_from_url.
Proof.
  intros H1 H2. unfold choose_ext.
  apply StrFacts.truthy_true in H1 as ->.
  by rewrite bool_decide_eq_false_2.
Qed.

Lemma url_stem_ext_shape w url :
  fst (url_stem_ext w url) ≠ ""
  ∧ all_chars (is_not "/") (fst (url_stem_ext w url)) = true
  ∧ ∃ e, snd (url_stem_ext w url) = String "." e
         ∧ all_chars (is_not ".") e = true
         ∧ all_chars (is_not "/") e = true.
Proof.
  unfold url_stem_ext.
  pose proof (UrlFacts.guess_ext_shape (urlparse_path w) url) as Hext.
  destruct (guess_name_and_ext_from_url (urlparse_path w) url) as [s0 ext].
  simpl in *.
  destruct (in_list (lower (sanitize_filename s0)) _).
  - split; [apply UrlFacts.hash_stem_nonempty |].
    split; [apply UrlFacts.hash_stem_no_slash | done].
  - split; [apply UrlFacts.sanitize_filename_nonempty |].
    split; [apply UrlFacts.sanitize_filename_no_slash | done].
Qed.

(** C5: when the extension implied by the URL is not ".jpg", it is the
    extension of the file name whatever the Content-Type of the response
    says: the name handed to [unique_path] is the stem followed by the URL's
    extension, the saved file bears one of the candidate names of that name
    and, for an extension with text after the dot, ends in that extension
    (stem.ext, or stem-k.ext after collisions). The extension inferred from
    the Content-Type is used only when the URL implied ".jpg", which is also
    what a URL without extension implies. *)
Theorem url_extension_wins
    (w : world) (guess_ext : option string → string)
    (url : string) (retries : Z) (st : state) :
  snd (url_stem_ext w url) ≠ ".jpg" →
  (∀ ct, choose_ext guess_ext ct (snd (url_stem_ext w url))
         = snd (url_stem_ext w url))
  ∧ (∀ name st',
       download_http_image w guess_ext url retries st = (name, st') →
       name ≠ "" →
       is_Some (dir st' !! name)
       ∧ (∃ st1, name
            = unique_name st1
                (fst (url_stem_ext w url) +:+ snd (url_stem_ext w url)))
       ∧ (snd (url_stem_ext w url) ≠ "." →
          ∃ k, name = candidate (fst (url_stem_ext w url))
                        (snd (url_stem_ext w url)) k))
  ∧ (∀ ct ext_from_url,
       ext_from_url ≠ "" →
       choose_ext guess_ext ct ext_from_url ≠ ext_from_url →
       ext_from_url = ".jpg"
       ∧ choose_ext guess_ext ct ext_from_url = guess_ext ct).
Proof.
  intros Hjpg.
  destruct (url_stem_ext_shape w url) as (Hstem & Hslash & e & He & Hdot & Hes).
  assert (snd (url_stem_ext w url) ≠ "") as Hne by (rewrite He; done).
  split; [intros ct; by apply choose_ext_url |].
  split.
  - intros name st' Hd Hname. unfold download_http_image in Hd.
    destruct (url_stem_ext w url) as [stem ext] eqn:Es. simpl in *.
    apply FetchSpec.attempts_success in Hd as (st1 & ct & Heq & Hin); [| done].
    rewrite choose_ext_url in Heq by done.
    split; [done |]. split; [by exists st1 |].
    intros Hproper. subst ext.
    assert (e ≠ "") as Hene by (intros ->; done).
    destruct (UrlFacts.path_stem_suffix stem e Hstem Hene Hslash Hes Hdot)
      as [Hst Hsu].
    destruct (NamingFacts.unique_path_first (dom (dir st1)) (stem +:+ String "." e))
      as (k & Hk & _).
    rewrite Hst, Hsu in Hk. exists k. by rewrite Heq.
  - intros ct ext Hext Hch.
    destruct (decide (ext = ".jpg")) as [-> | Hn].
    + split; [done |]. unfold choose_ext in *. simpl in *.
      destruct (truthy (guess_ext ct)); [done |]. done.
    + by rewrite choose_ext_url in Hch.
Qed.

(** A PNG URL answered with Content-Type image/webp is saved as PNG. *)
Lemma url_extension_wins_witness :
  choose_ext
    (DownloadImages.guess_ext_from_content_type
       ContentType.cpython_guess_extension) (Some "image/webp")
    (snd (url_stem_ext Sample.mislabelled "https://example.org/a/photo.png"))
  = snd (url_stem_ext Sample.mislabelled "https://example.org/a/photo.png").
Proof.
  apply (proj1 (url_extension_wins Sample.mislabelled
    (DownloadImages.guess_ext_from_content_type
       ContentType.cpython_guess_extension)
    "https://example.org/a/photo.png" 3 Sample.empty_state
    ltac:(vm_compute; discriminate)) (Some "image/webp")).
Defined.

Example download_png_declared_webp :
  download_http_image Sample.mislabelled
    (DownloadImages.guess_ext_from_content_type
       ContentType.cpython_guess_extension)
    "https://example.org/a/photo.png" 3 Sample.empty_state
  = ("photo.png",
     {| dir := {[ "photo.png" := Raw "PNG" ]}; gets := 1;
        trace := [EvWrite "photo.png"; EvGet "https://example.org/a/photo.png"] |}).
Proof. vm_compute. reflexivity. Qed.

Example download_jpg_declared_webp :
  fst (download_http_image Sample.mislabelled
    (DownloadImages.guess_ext_from_content_type
       ContentType.cpython_guess_extension)
    "https://example.org/a/photo.JPEG" 3 Sample.empty_state)
  = "photo.webp".
Proof. vm_compute. reflexivity. Qed.

End DownloadNaming.


(** ** Conversion: failure, cleanup, absent files, orientation *)

Module ConvertSpec.
Import PyStr Pil Convert DownloadImagesAsJpg DownloadImagesAsJpgForce.

Example convert_format_rotated :
  convert_format Sample.offline "a.webp" "jpg" Sample.rotated_webp_dir
  = ("a.jpg",
     {| dir := {[ "a.jpg" := Encoded "JPEG"
                    {| mode := "RGB"; transparency := false;
                       is_animated := false; frame := 0; orientation := 0 |} ]};
        gets := 0; trace := [EvUnlink "a.webp"; EvWrite "a.jpg"] |}).
Proof. vm_compute. reflexivity. Qed.

Example convert_if_webp_rotated :
  convert_if_webp Sample.offline "a.webp" "jpg" Sample.rotated_webp_dir
  = ("a.jpg",
     {| dir := {[ "a.jpg" := Encoded "JPEG"
                    {| mode := "RGB"; transparency := false;
                       is_animated := false; frame := 0; orientation := 6 |} ]};
        gets := 0; trace := [EvUnlink "a.webp"; EvWrite "a.jpg"] |}).
Proof. vm_compute. reflexivity. Qed.

Example convert_junk :
  convert_format Sample.offline "a.webp" "jpg" Sample.junk_webp_dir
  = ("a.webp",
     {| dir := {[ "a.webp" := Raw "not an image" ]}; gets := 0;
        trace := [EvWarn "Failed to convert a.webp"] |}).
Proof. vm_compute. reflexivity. Qed.

Section Outcome.
Variable w : world.
Variable prepare : string → image → string * image.

Lemma destination_fresh filename target_ext st :
  dir st !! destination filename target_ext st = None.
Proof. apply FetchSpec.unique_name_fresh. Qed.

Lemma exists_in_lookup st filename c :
  dir st !! filename = Some c →
  Naming.exists_in (dom (dir st)) filename = true.
Proof.
  intros H. apply NamingFacts.exists_in_true. right. right.
  apply elem_of_dom. by eexists.
Qed.

(** A file that does not decode: the name is returned, nothing is written
    or removed. *)
Lemma convert_file_decode_failure filename target_ext st c :
  dir st !! filename = Some c → open_image w c = None →
  convert_file w prepare filename target_ext st
  = (filename, warn_failed filename st).
Proof.
  intros Hc Ho. unfold convert_file.
  rewrite (exists_in_lookup _ _ _ Hc). simpl. by rewrite Hc, Ho.
Qed.

(** An image the encoder rejects, or a destination that cannot be written:
    the same. *)
Lemma convert_file_encode_failure filename target_ext st c im fmt im' :
  dir st !! filename = Some c → open_image w c = Some im →
  prepare (lstrip "." (lower target_ext)) (first_frame im) = (fmt, im') →
  encoder_ok w fmt im' && write_ok w (destination filename target_ext st) = false →
  convert_file w prepare filename target_ext st
  = (filename, warn_failed filename st).
Proof.
  intros Hc Ho Hp He. unfold convert_file.
  rewrite (exists_in_lookup _ _ _ Hc). simpl. rewrite Hc, Ho, Hp.
  by rewrite He.
Qed.

(** A successful conversion: the destination is written, then the source is
    removed if it can be. *)
Lemma convert_file_success filename target_ext st c im fmt im' :
  dir st !! filename = Some c → open_image w c = Some im →
  prepare (lstrip "." (lower target_ext)) (first_frame im) = (fmt, im') →
  encoder_ok w fmt im' && write_ok w (destination filename target_ext st) = true →
  convert_file w prepare filename target_ext st
  = (destination filename target_ext st,
     let st1 := write_file (destination filename target_ext st)
                  (Encoded fmt im') st in
     if unlink_ok w filename then unlink_file filename st1 else st1).
Proof.
  intros Hc Ho Hp He. unfold convert_file.
  rewrite (exists_in_lookup _ _ _ Hc). simpl. rewrite Hc, Ho, Hp.
  by rewrite He.
Qed.

(** The two ways a conversion ends. *)
Lemma convert_file_cases filename target_ext st :
  (fst (convert_file w prepare filename target_ext st) = filename
   ∧ dir (snd (convert_file w prepare filename target_ext st)) = dir st
   ∧ (snd (convert_file w prepare filename target_ext st) = st
      ∨ snd (convert_file w prepare filename target_ext st)
        = warn_failed filename st))
  ∨ (∃ c im fmt im',
       dir st !! filename = Some c ∧ open_image w c = Some im
       ∧ prepare (lstrip "." (lower target_ext)) (first_frame im) = (fmt, im')
       ∧ convert_file w prepare filename target_ext st
         = (destination filename target_ext st,
            let st1 := write_file (destination filename target_ext st)
                         (Encoded fmt im') st in
            if unlink_ok w filename then unlink_file filename st1 else st1)).
Proof.
  destruct (dir st !! filename) as [c |] eqn:Hc.
  - destruct (open_image w c) as [im |] eqn:Ho.
    + destruct (prepare (lstrip "." (lower target_ext)) (first_frame im))
        as [fmt im'] eqn:Hp.
      destruct (encoder_ok w fmt im'
                && write_ok w (destination filename target_ext st)) eqn:He.
      * right. exists c, im, fmt, im'. repeat split; try done.
        by eapply convert_file_success.
      * left. erewrite convert_file_encode_failure by done. simpl. auto.
    + left. erewrite convert_file_decode_failure by done. simpl. auto.
  - left. unfold convert_file. rewrite Hc.
    destruct (Naming.exists_in (dom (dir st)) filename); simpl; auto.
Qed.

End Outcome.

Lemma convert_if_webp_on_webp w filename target_ext st :
  endswith (lower filename) ".webp" = true →
  convert_if_webp w filename target_ext st
  = convert_file w prepare_webp filename target_ext st.
Proof. intros H. unfold convert_if_webp. by rewrite H. Qed.

(** C6: for a file of the directory handed to the converter ([convert_format],
    and [convert_if_webp] on a name ending in ".webp", which share their
    body): when the file does not decode, or the encoder or the write of the
    destination fails, the original name is returned and the directory is
    unchanged; when the conversion succeeds the destination is a fresh name,
    different from the source, it holds the encoded image, and the source is
    removed after that write, or kept when its removal fails, the new name
    being returned in both cases; whenever the source is gone, the
    destination was written before. No outcome is an exception. *)
Theorem conversion_failure_and_cleanup
    (w : world) (filename target_ext : string) (st : state) (c : content) :
  dir st !! filename = Some c →
  (∀ prepare,
     let r := convert_file w prepare filename target_ext st in
     let dst := destination filename target_ext st in
     (open_image w c = None → fst r = filename ∧ dir (snd r) = dir st)
     ∧ (∀ im fmt im',
          open_image w c = Some im →
          prepare (lstrip "." (lower target_ext)) (first_frame im) = (fmt, im') →
          (encoder_ok w fmt im' && write_ok w dst = false →
           fst r = filename ∧ dir (snd r) = dir st)
          ∧ (encoder_ok w fmt im' && write_ok w dst = true →
             fst r = dst ∧ dst ≠ filename ∧ dir st !! dst = None
             ∧ dir (snd r) !! dst = Some (Encoded fmt im')
             ∧ (unlink_ok w filename = true →
                dir (snd r) !! filename = None
                ∧ trace (snd r) = EvUnlink filename :: EvWrite dst :: trace st)
             ∧ (unlink_ok w filename = false →
                dir (snd r) !! filename = Some c
                ∧ trace (snd r) = EvWrite dst :: trace st)))
     ∧ (dir (snd r) !! filename = None →
        fst r = dst ∧ is_Some (dir (snd r) !! dst)
        ∧ trace (snd r) = EvUnlink filename :: EvWrite dst :: trace st))
  ∧ convert_format w filename target_ext st
    = convert_file w prepare_rgb_with_background filename target_ext st
  ∧ (endswith (lower filename) ".webp" = true →
     convert_if_webp w filename target_ext st
     = convert_file w prepare_webp filename target_ext st).
Proof.
  intros Hc.
  split; [| split; [done | apply convert_if_webp_on_webp]].
  intros prepare r dst.
  assert (dst ≠ filename) as Hne.
  { intros Heq. pose proof (destination_fresh filename target_ext st) as Hf.
    fold dst in Hf. rewrite Heq, Hc in Hf. done. }
  assert (∀ im fmt im',
    open_image w c = Some im →
    prepare (lstrip "." (lower target_ext)) (first_frame im) = (fmt, im') →
    encoder_ok w fmt im' && write_ok w dst = true →
    fst r = dst ∧ dir (snd r) !! dst = Some (Encoded fmt im')
    ∧ (unlink_ok w filename = true →
       dir (snd r) !! filename = None
       ∧ trace (snd r) = EvUnlink filename :: EvWrite dst :: trace st)
    ∧ (unlink_ok w filename = false →
       dir (snd r) !! filename = Some c
       ∧ trace (snd r) = EvWrite dst :: trace st)) as Hsucc.
  { intros im fmt im' Ho Hp He. unfold r.
    rewrite (convert_file_success w prepare _ _ _ _ _ _ _ Hc Ho Hp He).
    fold dst. simpl. split; [done |].
    destruct (unlink_ok w filename); simpl.
    - rewrite lookup_delete_ne by done. rewrite lookup_insert_eq.
      split; [done |]. split; [| done]. intros _.
      by rewrite lookup_delete_eq.
    - rewrite lookup_insert_eq. split; [done |]. split; [done |]. intros _.
      by rewrite lookup_insert_ne. }
  split; [| split].
  - intros Ho. unfold r.
    by rewrite (convert_file_decode_failure w prepare _ _ _ _ Hc Ho).
  - intros im fmt im' Ho Hp. split.
    + intros He. unfold r.
      by rewrite (convert_file_encode_failure w prepare _ _ _ _ _ _ _ Hc Ho Hp He).
    + intros He. destruct (Hsucc im fmt im' Ho Hp He) as (? & ? & ? & ?).
      split; [done |]. split; [done |].
      split; [apply destination_fresh |]. done.
  - intros Hgone.
    destruct (convert_file_cases w prepare filename target_ext st)
      as [(_ & Hd & _) | (c' & im & fmt & im' & Hc' & Ho & Hp & Heq)].
    + fold r in Hd. rewrite Hd, Hc in Hgone. done.
    + rewrite Hc in Hc'. injection Hc' as <-.
      destruct (encoder_ok w fmt im' && write_ok w dst) eqn:He.
      * destruct (Hsucc im fmt im' Ho Hp He) as (? & Hw & Hyes & Hno).
        destruct (unlink_ok w filename).
        -- destruct Hyes as [_ ?]; [done |]. rewrite Hw. split; [done |].
           split; [by eexists | done].
        -- destruct Hno as [Hkept _]; [done |]. rewrite Hkept in Hgone. done.
      * unfold r in Hgone.
        rewrite (convert_file_encode_failure w prepare _ _ _ _ _ _ _ Hc Ho Hp He)
          in Hgone.
        simpl in Hgone. rewrite Hc in Hgone. done.
Qed.

(** A file that is no image: its name comes back, the directory stays. *)
Lemma conversion_failure_and_cleanup_witness :
  fst (convert_file Sample.offline prepare_rgb_with_background
         "a.webp" "jpg" Sample.junk_webp_dir) = "a.webp"
  ∧ dir (snd (convert_file Sample.offline prepare_rgb_with_background
                "a.webp" "jpg" Sample.junk_webp_dir))
    = dir Sample.junk_webp_dir.
Proof.
  apply (proj1 (proj1 (conversion_failure_and_cleanup Sample.offline
    "a.webp" "jpg" Sample.junk_webp_dir (Raw "not an image")
    ltac:(vm_compute; reflexivity)) prepare_rgb_with_background)
    ltac:(reflexivity)).
Defined.

Example convert_sticky :
  convert_format Sample.sticky "a.webp" "jpg" Sample.rotated_webp_dir
  = ("a.jpg",
     {| dir := {[ "a.webp" := Encoded "WEBP" Sample.rotated;
                  "a.jpg" := Encoded "JPEG"
                    {| mode := "RGB"; transparency := false;
                       is_animated := false; frame := 0; orientation := 0 |} ]};
        gets := 0; trace := [EvWrite "a.jpg"] |}).
Proof. vm_compute. reflexivity. Qed.

(** C10: for a name that is not a file of the images directory,
    [convert_format] and [convert_if_webp] return the name unchanged and
    neither write nor remove anything: the directory is the same and no
    write or removal is recorded; for a name other than the directory itself
    and its parent the state is untouched altogether. *)
Theorem convert_absent_file
    (w : world) (filename target_ext : string) (st : state) :
  dir st !! filename = None →
  (fst (convert_format w filename target_ext st) = filename
   ∧ dir (snd (convert_format w filename target_ext st)) = dir st
   ∧ (∀ n, EvWrite n ∈ trace (snd (convert_format w filename target_ext st)) →
           EvWrite n ∈ trace st)
   ∧ (∀ n, EvUnlink n ∈ trace (snd (convert_format w filename target_ext st)) →
           EvUnlink n ∈ trace st))
  ∧ (fst (convert_if_webp w filename target_ext st) = filename
     ∧ dir (snd (convert_if_webp w filename target_ext st)) = dir st
     ∧ (∀ n, EvWrite n ∈ trace (snd (convert_if_webp w filename target_ext st)) →
             EvWrite n ∈ trace st)
     ∧ (∀ n, EvUnlink n ∈ trace (snd (convert_if_webp w filename target_ext st)) →
             EvUnlink n ∈ trace st))
  ∧ (filename ≠ "" → filename ≠ ".." →
     convert_format w filename target_ext st = (filename, st)
     ∧ convert_if_webp w filename target_ext st = (filename, st)).
Proof.
  intros Hc.
  assert (∀ prepare,
    fst (convert_file w prepare filename target_ext st) = filename
    ∧ dir (snd (convert_file w prepare filename target_ext st)) = dir st
    ∧ (∀ n, EvWrite n ∈ trace (snd (convert_file w prepare filename target_ext st)) →
            EvWrite n ∈ trace st)
    ∧ (∀ n, EvUnlink n ∈ trace (snd (convert_file w prepare filename target_ext st)) →
            EvUnlink n ∈ trace st)) as Hgen.
  { intros prepare. unfold convert_file. rewrite Hc.
    destruct (Naming.exists_in (dom (dir st)) filename); simpl.
    - repeat split; try done.
      + intros n Hn. apply elem_of_cons in Hn as [Hn | Hn]; [done | done].
      + intros n Hn. apply elem_of_cons in Hn as [Hn | Hn]; [done | done].
    - done. }
  split; [apply Hgen |]. split.
  - unfold convert_if_webp.
    destruct (endswith (lower filename) ".webp"); simpl; [apply Hgen | done].
  - intros H1 H2.
    assert (Naming.exists_in (dom (dir st)) filename = false) as Hex.
    { apply NamingFacts.exists_in_false. repeat split; try done.
      by apply not_elem_of_dom. }
    unfold convert_if_webp, convert_format, convert_file. rewrite Hex. simpl.
    by destruct (endswith (lower filename) ".webp").
Qed.

(** A name absent from an empty directory. *)
Lemma convert_absent_file_witness :
  convert_format Sample.offline "gone.webp" "jpg" Sample.empty_state
    = ("gone.webp", Sample.empty_state)
  ∧ convert_if_webp Sample.offline "gone.webp" "jpg" Sample.empty_state
    = ("gone.webp", Sample.empty_state).
Proof.
  apply (proj2 (proj2 (convert_absent_file Sample.offline "gone.webp" "jpg"
    Sample.empty_state ltac:(vm_compute; reflexivity)))); discriminate.
Defined.

(** *** Orientation *)

Lemma exif_transpose_upright im : upright (exif_transpose im) = true.
Proof.
  unfold exif_transpose, upright.
  destruct ((2 <=? orientation im) && (orientation im <=? 8)) eqn:E.
  - done.
  - by rewrite E.
Qed.

(** What [_save_rgb_with_background] encodes has its pixels in place,
    whatever the target format. *)
Lemma prepare_rgb_with_background_upright fmt im :
  upright (snd (prepare_rgb_with_background fmt im)) = true.
Proof.
  pose proof (exif_transpose_upright im) as H.
  unfold prepare_rgb_with_background.
  destruct (in_list (upper fmt) ["JPG"; "JPEG"]); simpl.
  - destruct (has_transparency (exif_transpose im)); simpl; done.
  - destruct (negb (in_list (mode (exif_transpose im)) ["RGB"; "RGBA"])); simpl;
      done.
Qed.

(** [convert_if_webp] encodes the pixels as they were decoded. *)
Lemma prepare_webp_orientation target_ext im :
  orientation (snd (prepare_webp target_ext im)) = orientation im.
Proof.
  unfold prepare_webp.
  destruct (in_list target_ext ["jpg"; "jpeg"]); simpl.
  - destruct (has_transparency im); simpl; done.
  - destruct (negb (in_list (mode im) ["RGB"; "RGBA"])); simpl; done.
Qed.

(** Every conversion of downloadimagesasjpgforce.py writes an upright
    image. *)
Lemma convert_format_saves_upright w filename target_ext st :
  fst (convert_format w filename target_ext st) ≠ filename →
  ∃ fmt im,
    dir (snd (convert_format w filename target_ext st))
      !! fst (convert_format w filename target_ext st) = Some (Encoded fmt im)
    ∧ upright im = true.
Proof.
  intros Hne. unfold convert_format in *.
  destruct (convert_file_cases w prepare_rgb_with_background filename target_ext st)
    as [(Hsame & _) | (c & im & fmt & im' & Hc & Ho & Hp & Heq)]; [done |].
  rewrite Heq. simpl. exists fmt, im'. split.
  - assert (destination filename target_ext st ≠ filename) as Hd.
    { intros E. pose proof (destination_fresh filename target_ext st) as Hf.
      rewrite E, Hc in Hf. done. }
    destruct (unlink_ok w filename); simpl.
    + rewrite lookup_delete_ne by done. apply lookup_insert_eq.
    + apply lookup_insert_eq.
  - pose proof (prepare_rgb_with_background_upright
                  (lstrip "." (lower target_ext)) (first_frame im)) as Hu.
    by rewrite Hp in Hu.
Qed.

Lemma maybe_convert_by_ext_saves_upright w filename webp heic force st :
  fst (maybe_convert_by_ext w filename webp heic force st) ≠ filename →
  ∃ fmt im,
    dir (snd (maybe_convert_by_ext w filename webp heic force st))
      !! fst (maybe_convert_by_ext w filename webp heic force st)
    = Some (Encoded fmt im)
    ∧ upright im = true.
Proof.
  unfold maybe_convert_by_ext.
  destruct (truthy force); [apply convert_format_saves_upright |].
  destruct (endswith (lower filename) ".webp" && truthy webp);
    [apply convert_format_saves_upright |].
  destruct ((endswith (lower filename) ".heic" || endswith (lower filename) ".heif")
            && truthy heic); [| done].
  destruct (heif_available w); [apply convert_format_saves_upright | done].
Qed.

(** C1 at the failing input: a WEBP file whose pixels are stored under EXIF
    orientation 6 is converted to JPEG by [convert_if_webp] of
    downloadimagesasjpg.py with the pixels left as they are, so the saved
    image is not upright; [convert_format] of downloadimagesasjpgforce.py
    puts the pixels of the same file in place. *)
Theorem convert_if_webp_keeps_rotation :
  (fst (convert_if_webp Sample.offline "a.webp" "jpg" Sample.rotated_webp_dir)
     = "a.jpg"
   ∧ dir (snd (convert_if_webp Sample.offline "a.webp" "jpg"
                 Sample.rotated_webp_dir)) !! "a.jpg"
     = Some (Encoded "JPEG"
               {| mode := "RGB"; transparency := false; is_animated := false;
                  frame := 0; orientation := 6 |})
   ∧ upright {| mode := "RGB"; transparency := false; is_animated := false;
                frame := 0; orientation := 6 |} = false)
  ∧ (fst (convert_format Sample.offline "a.webp" "jpg" Sample.rotated_webp_dir)
       = "a.jpg"
     ∧ dir (snd (convert_format Sample.offline "a.webp" "jpg"
                   Sample.rotated_webp_dir)) !! "a.jpg"
       = Some (Encoded "JPEG"
                 {| mode := "RGB"; transparency := false; is_animated := false;
                    frame := 0; orientation := 0 |})).
Proof. vm_compute. repeat split; reflexivity. Qed.

End ConvertSpec.


(** ** The batch loop: which failures stay inside a record *)

Module PipelineSpec.
Import PyStr Fetch Convert Table.

(** Only the copy of a local file lets an exception out of the fetch of a
    reference: data URLs, HTTP(S) URLs and references that are no file give
    a name, possibly empty. *)
Lemma fetch_raises_only_copy w guess url retries st e :
  fetch w guess url retries st = Raised e →
  startswith "data:" url = false
  ∧ in_list (urlparse_scheme w url) ["http"; "https"] = false
  ∧ local_file w url ≠ NotAFile.
Proof.
  unfold fetch. destruct (truthy url); [| done].
  destruct (startswith "data:" url); [done |].
  destruct (in_list (urlparse_scheme w url) ["http"; "https"]); [done |].
  unfold copy_local. destruct (local_file w url); [done | done | done].
Qed.

Lemma fetch_not_a_file w guess url retries st :
  local_file w url = NotAFile →
  ∃ name st', fetch w guess url retries st = Returned (name, st').
Proof.
  intros Hl. destruct (fetch w guess url retries st) as [[name st'] | e] eqn:E.
  - by exists name, st'.
  - apply fetch_raises_only_copy in E as (_ & _ & ?). done.
Qed.

(** When every row of the loop returns, the loop returns as many rows as it
    was given. *)
Lemma process_rows_returns {R} (body : R → state → outcome (R * state)) rows :
  (∀ r st, r ∈ rows → ∃ r' st', body r st = Returned (r', st')) →
  ∀ st, ∃ out st', process_rows body rows st = Returned (out, st')
                   ∧ length out = length rows.
Proof.
  induction rows as [|r rows IH]; intros Hbody st; simpl.
  - by exists [], st.
  - destruct (Hbody r st) as (r' & st' & ->); [by left |].
    destruct (IH (λ r0 st0 Hin, Hbody r0 st0 (list_elem_of_further _ _ _ Hin)) st')
      as (out & st'' & -> & Hlen).
    exists (r' :: out), st''. simpl. by rewrite Hlen.
Qed.

(** Without readable-or-locked local files among the references, no record
    aborts the batch of downloadimages.py. *)
Lemma process_csv_no_local_files w retries rows st :
  (∀ r, r ∈ rows → local_file w (row_url r) = NotAFile) →
  ∃ out st', DownloadImages.process_csv w retries rows st = Returned (out, st')
             ∧ length out = length rows.
Proof.
  intros Hrows. apply process_rows_returns.
  intros r st0 Hin. unfold DownloadImages.process_row.
  destruct (fetch_not_a_file w (DownloadImages.guess_ext_from_content_type (guess_extension w)) (row_url r) retries st0 (Hrows r Hin))
    as (name & st' & ->).
  by eexists _, _.
Qed.

(** C2 at the failing input: the first record refers to a local file that
    exists and cannot be read. The copy of downloadimages.py and of
    downloadimagesasjpgforce.py is outside any [try]: the exception leaves
    the loop, the second record is not processed and no output table is
    produced. The second record alone is processed. *)
Theorem unreadable_local_file_aborts_batch :
  DownloadImages.process_csv Sample.locked_file 3 Sample.locked_then_inline
    Sample.empty_state
  = Raised (OSError "read_bytes")
  ∧ DownloadImagesAsJpgForce.process_csv Sample.locked_file 3 "jpg" "jpg" ""
      Sample.locked_then_inline_frame Sample.empty_state
    = Raised (OSError "read_bytes")
  ∧ DownloadImages.process_csv Sample.locked_file 3 (tail Sample.locked_then_inline)
      Sample.empty_state
    = Returned
        ([[("url", "data:image/png;base64,iVBORw=="); ("caption", "second");
           ("image_name", "img_0000000000.png")]],
         {| dir := {[ "img_0000000000.png" := Raw "iVBORw==" ]}; gets := 0;
            trace := [EvWrite "img_0000000000.png"] |}).
Proof. vm_compute. repeat split; reflexivity. Qed.

End PipelineSpec.


(** ** copy_images_to_events.py: the header check and the sanitizer *)

Module FolderingSpec.
Import PyStr CopyImagesToEvents.

Example header_image_event :
  main (Sample.foldering ["image"; "event"]) = (Exit 1, []).
Proof. vm_compute. reflexivity. Qed.

Example header_image_name_event :
  main (Sample.foldering ["Image_Name"; "EVENT"])
  = (Summary 1 0, [("a.jpg", "a_jpg")]).
Proof. vm_compute. reflexivity. Qed.

Lemma lower_index_lookup cols k :
  is_Some (lower_index cols !! k) ↔ k ∈ lower <$> cols.
Proof.
  unfold lower_index. rewrite <- not_eq_None_Some, <- not_elem_of_list_to_map.
  assert ((reverse ((λ c, (lower c, c)) <$> cols)).*1 = reverse (lower <$> cols))
    as ->.
  { rewrite fmap_reverse, <- list_fmap_compose. done. }
  rewrite elem_of_reverse. split; [apply dec_stable | tauto].
Qed.

(** The header is accepted exactly when some column is named "image_name"
    and some column "event", letter case apart. *)
Lemma required_columns_accepts cols :
  is_Some (required_columns cols)
  ↔ "image_name" ∈ lower <$> cols ∧ "event" ∈ lower <$> cols.
Proof.
  unfold required_columns. rewrite <- !lower_index_lookup.
  destruct (bool_decide (is_Some (lower_index cols !! "image_name"))) eqn:E1;
    destruct (bool_decide (is_Some (lower_index cols !! "event"))) eqn:E2;
    simpl.
  - apply bool_decide_eq_true in E1, E2. split; [done | by eexists].
  - apply bool_decide_eq_true in E1. apply bool_decide_eq_false in E2.
    split; [by intros [? ?] | tauto].
  - apply bool_decide_eq_false in E1.
    split; [by intros [? ?] | tauto].
  - apply bool_decide_eq_false in E1.
    split; [by intros [? ?] | tauto].
Qed.

(** C8 at the failing input: a table whose columns are "image" and "event",
    which the usage text and the error message of the script ask for, is
    rejected with exit status 1 before any row is handled, because the check
    looks for a column "image_name"; a table with "image_name" and "event",
    without any column "image", is accepted. *)
Theorem image_event_header_rejected :
  main (Sample.foldering ["image"; "event"]) = (Exit 1, [])
  ∧ required_columns ["image"; "event"] = None
  ∧ required_columns ["Image"; "Event"] = None
  ∧ required_columns ["image_name"; "event"] = Some ("image_name", "event")
  ∧ main (Sample.foldering ["image_name"; "event"])
    = (Summary 1 0, [("a.jpg", "a_jpg")]).
Proof. vm_compute. repeat split; reflexivity. Qed.

(** *** The two sanitizers *)

Lemma sanitize_name_nonempty decompose name max_len :
  sanitize_name decompose name max_len ≠ "".
Proof.
  unfold sanitize_name. cbv zeta.
  match goal with |- (if truthy ?s then _ else _) ≠ _ =>
    destruct (truthy s) eqn:E end; [| done].
  by apply StrFacts.truthy_true.
Qed.

Lemma sanitize_name_empty decompose max_len :
  sanitize_name decompose (Some "") max_len = "unknown"
  ∧ sanitize_name decompose None max_len = "unknown".
Proof.
  unfold sanitize_name. simpl.
  destruct (max_len <? 0); done.
Qed.

(** C9, as the code has it: the pipeline's [sanitize_filename] and the
    utility's [sanitize_name] are two functions. Each is a total function of
    its input alone and never returns the empty string; [sanitize_name]
    gives "unknown" for the empty string and for [None], [sanitize_filename]
    gives "file" for the empty string. *)
Theorem sanitizers_fallbacks
    (decompose : ascii → string) (name : option string) (max_len : nat)
    (s : string) :
  sanitize_name decompose name max_len ≠ ""
  ∧ Url.sanitize_filename s ≠ ""
  ∧ sanitize_name decompose (Some "") max_len = "unknown"
  ∧ sanitize_name decompose None max_len = "unknown"
  ∧ Url.sanitize_filename "" = "file".
Proof.
  split; [apply sanitize_name_nonempty |].
  split; [apply UrlFacts.sanitize_filename_nonempty |].
  split; [apply sanitize_name_empty |].
  split; [apply sanitize_name_empty | done].
Qed.

(** C9 as stated fails: on the empty string the two sanitizers differ, and
    they differ on a name with a dot inside. *)
Lemma sanitizers_differ :
  Url.sanitize_filename "" = "file"
  ∧ sanitize_name (λ _, "") (Some "") 80 = "unknown"
  ∧ Url.sanitize_filename "a.b" = "a.b"
  ∧ sanitize_name (λ _, "") (Some "a.b") 80 = "a_b".
Proof. vm_compute. repeat split; reflexivity. Qed.

End FolderingSpec.


(** * Further properties of the scripts *)

(** ** More facts on strings: reversal, stripping, prefixes *)

Module StrMore.
Import PyStr.

Lemma rev_app_app s t : String.rev_app s t = String.rev s +:+ t.
Proof.
  unfold String.rev. revert t. induction s as [|a s IH]; intros t; simpl.
  - done.
  - rewrite IH, (IH (String a "")), StrFacts.app_assoc. done.
Qed.

Lemma rev_cons a s : String.rev (String a s) = String.rev s +:+ String a "".
Proof. unfold String.rev at 1. simpl. apply rev_app_app. Qed.

Lemma rev_app s t : String.rev (s +:+ t) = String.rev t +:+ String.rev s.
Proof.
  induction s as [|a s IH].
  - rewrite StrFacts.app_nil_l. by rewrite StrFacts.app_nil_r.
  - rewrite StrFacts.app_cons, !rev_cons, IH, StrFacts.app_assoc. done.
Qed.

Lemma rev_involutive s : String.rev (String.rev s) = s.
Proof.
  induction s as [|a s IH]; [done |].
  rewrite rev_cons, rev_app, IH. done.
Qed.

Lemma length_rev s : String.length (String.rev s) = String.length s.
Proof.
  induction s as [|a s IH]; [done |].
  rewrite rev_cons, StrFacts.length_app, IH. simpl. lia.
Qed.

(** [lstrip] leaves a suffix. *)
Lemma lstrip_suffix cs s : ∃ u, s = u +:+ lstrip cs s.
Proof.
  induction s as [|a s [u IH]]; simpl.
  - by exists "".
  - destruct (contains_char a cs).
    + exists (String a u). rewrite StrFacts.app_cons. by f_equal.
    + by exists "".
Qed.

(** [rstrip] leaves a prefix. *)
Lemma rstrip_prefix cs s : ∃ u, s = rstrip cs s +:+ u.
Proof.
  unfold rstrip. destruct (lstrip_suffix cs (String.rev s)) as [u Hu].
  exists (String.rev u).
  rewrite <- rev_app, <- Hu. by rewrite rev_involutive.
Qed.

Lemma take_prefix n s : ∃ u, s = take n s +:+ u.
Proof.
  revert s. induction n as [|n IH]; intros [|a s]; simpl;
    try (by eexists; rewrite StrFacts.app_nil_l).
  destruct (IH s) as [u Hu]. exists u. rewrite StrFacts.app_cons. by f_equal.
Qed.

Lemma lstrip_head_free cs s : head_free cs (lstrip cs s) = true.
Proof.
  induction s as [|a s IH]; simpl; [done |].
  destruct (contains_char a cs) eqn:E; [done |]. simpl. by rewrite E.
Qed.

Lemma rstrip_last_free cs s : last_free cs (rstrip cs s) = true.
Proof.
  unfold last_free, rstrip. rewrite rev_involutive. apply lstrip_head_free.
Qed.

Lemma head_free_prefix cs s u :
  head_free cs (s +:+ u) = true → head_free cs s = true.
Proof. destruct s; [done |]. by rewrite StrFacts.app_cons. Qed.

Lemma last_free_suffix cs u s :
  last_free cs (u +:+ s) = true → last_free cs s = true.
Proof.
  unfold last_free. rewrite rev_app. apply head_free_prefix.
Qed.

Lemma lstrip_id cs s : head_free cs s = true → lstrip cs s = s.
Proof.
  destruct s as [|a s]; simpl; [done |].
  intros H. apply negb_true_iff in H. by rewrite H.
Qed.

Lemma rstrip_id cs s : last_free cs s = true → rstrip cs s = s.
Proof.
  unfold last_free, rstrip. intros H.
  rewrite lstrip_id by done. apply rev_involutive.
Qed.

Lemma strip_head_free cs s : head_free cs (strip cs s) = true.
Proof.
  unfold strip.
  destruct (rstrip_prefix cs (lstrip cs s)) as [u Hu].
  apply (head_free_prefix _ _ u). rewrite <- Hu. apply lstrip_head_free.
Qed.

Lemma strip_last_free cs s : last_free cs (strip cs s) = true.
Proof. apply rstrip_last_free. Qed.

Lemma strip_id cs s :
  head_free cs s = true → last_free cs s = true → strip cs s = s.
Proof.
  intros Hh Hl. unfold strip. rewrite (lstrip_id _ _ Hh). by apply rstrip_id.
Qed.

Lemma length_lstrip cs s : String.length (lstrip cs s) ≤ String.length s.
Proof.
  destruct (lstrip_suffix cs s) as [u Hu].
  rewrite Hu at 2. rewrite StrFacts.length_app. lia.
Qed.

Lemma length_rstrip cs s : String.length (rstrip cs s) ≤ String.length s.
Proof.
  destruct (rstrip_prefix cs s) as [u Hu].
  rewrite Hu at 2. rewrite StrFacts.length_app. lia.
Qed.

Lemma length_take n s : String.length (take n s) ≤ n.
Proof.
  revert s. induction n as [|n IH]; intros [|a s]; simpl; try lia.
  specialize (IH s). lia.
Qed.

Lemma take_all n s : String.length s ≤ n → take n s = s.
Proof.
  revert s. induction n as [|n IH]; intros [|a s]; simpl; try done; try lia.
  intros H. f_equal. apply IH. lia.
Qed.

(** A substitution changes nothing when no character is of the class. *)
Lemma sub_runs_id bad rep b s :
  all_chars (λ a, negb (bad a)) s = true → PyRe.sub_runs bad rep b s = s.
Proof.
  revert b. induction s as [|a s IH]; intros b; simpl; [done |].
  rewrite andb_true_iff, negb_true_iff. intros [-> Hs]. by rewrite IH.
Qed.

Lemma sub_each_id bad rep s :
  all_chars (λ a, negb (bad a)) s = true → PyRe.sub_each bad rep s = s.
Proof.
  induction s as [|a s IH]; simpl; [done |].
  rewrite andb_true_iff, negb_true_iff. intros [-> Hs]. by rewrite IH.
Qed.

End StrMore.


(** ** [sanitize_filename] *)

Module SanitizeFilename.
Import PyStr Url.

Lemma sub_runs_chars (P : ascii → bool) bad rep b s :
  all_chars P rep = true → (∀ a, bad a = false → P a = true) →
  all_chars P (PyRe.sub_runs bad rep b s) = true.
Proof.
  intros Hrep Hgood. revert b.
  induction s as [|a s IH]; intros b; simpl; [done |].
  destruct (bad a) eqn:E.
  - destruct b; [apply IH |]. rewrite StrFacts.all_chars_app, Hrep, IH. done.
  - simpl. rewrite (Hgood _ E), IH. done.
Qed.

Lemma sanitized_chars s :
  all_chars (λ a, negb (unsafe_char a)) (sanitize_filename s) = true.
Proof.
  unfold sanitize_filename.
  destruct (truthy _); [| done].
  apply StrFacts.all_chars_strip, sub_runs_chars; [done |].
  intros a Ha. by rewrite Ha.
Qed.

(** X1: the result of [sanitize_filename] is never empty, consists only of
    ASCII letters, digits, "_", "-" and ".", and neither begins nor ends
    with a dot or an underscore. *)
Theorem sanitize_filename_safe (s : string) :
  sanitize_filename s ≠ ""
  ∧ all_chars (λ a, PyRe.is_word a || eqb_ascii a "-" || eqb_ascii a ".")
      (sanitize_filename s) = true
  ∧ head_free "._" (sanitize_filename s) = true
  ∧ last_free "._" (sanitize_filename s) = true.
Proof.
  split; [apply UrlFacts.sanitize_filename_nonempty |].
  split.
  { eapply StrFacts.all_chars_impl; [| apply sanitized_chars].
    intros a. unfold unsafe_char. by rewrite negb_involutive. }
  unfold sanitize_filename.
  destruct (truthy _); [| done].
  split; [apply StrMore.strip_head_free | apply StrMore.strip_last_free].
Qed.

(** X2: [sanitize_filename] is idempotent: a sanitized name is its own
    sanitized form. *)
Theorem sanitize_filename_idempotent (s : string) :
  sanitize_filename (sanitize_filename s) = sanitize_filename s.
Proof.
  destruct (sanitize_filename_safe s) as (Hne & _ & Hh & Hl).
  pose proof (sanitized_chars s) as Hc.
  set (r := sanitize_filename s) in *.
  unfold sanitize_filename at 1.
  rewrite StrMore.sub_runs_id.
  - rewrite StrMore.strip_id by done.
    by apply StrFacts.truthy_true in Hne as ->.
  - eapply StrFacts.all_chars_impl; [| apply Hc]. done.
Qed.

Example sanitize_filename_spaces :
  sanitize_filename "..my  photo (1).jpg_" = "my_photo_1_.jpg".
Proof. vm_compute. reflexivity. Qed.

End SanitizeFilename.


(** ** [sanitize_name] of copy_images_to_events.py *)

Module SanitizeName.
Import PyStr CopyImagesToEvents.

Lemma folder_char_legal a :
  illegal_char a = false → space_or_dot a = false → folder_char a = true.
Proof.
  unfold illegal_char, space_or_dot, folder_char.
  destruct (PyRe.is_alnum a), (eqb_ascii a "-"), (eqb_ascii a "_"),
    (eqb_ascii a " "), (eqb_ascii a "."); simpl; done.
Qed.

Lemma folder_char_ascii a : folder_char a = true → is_ascii a = true.
Proof. destruct a as [[] [] [] [] [] [] [] []]; vm_compute; done. Qed.

Lemma folder_char_not_illegal a : folder_char a = true → illegal_char a = false.
Proof.
  unfold illegal_char, folder_char.
  destruct (PyRe.is_alnum a), (eqb_ascii a "-"), (eqb_ascii a "_"); simpl; done.
Qed.

Lemma folder_char_not_space_or_dot a :
  folder_char a = true → space_or_dot a = false.
Proof. destruct a as [[] [] [] [] [] [] [] []]; vm_compute; done. Qed.

Lemma sub_each_chars (P : ascii → bool) bad rep s :
  all_chars P rep = true → (∀ a, bad a = false → P a = true) →
  all_chars P (PyRe.sub_each bad rep s) = true.
Proof.
  intros Hrep Hgood. induction s as [|a s IH]; simpl; [done |].
  destruct (bad a) eqn:E.
  - rewrite StrFacts.all_chars_app, Hrep, IH. done.
  - simpl. rewrite (Hgood _ E), IH. done.
Qed.

(** Substituting inside a string of good characters keeps them good. *)
Lemma sub_runs_keeps (P : ascii → bool) bad rep b s :
  all_chars P rep = true → all_chars P s = true →
  all_chars P (PyRe.sub_runs bad rep b s) = true.
Proof.
  intros Hrep. revert b. induction s as [|a s IH]; intros b; simpl; [done |].
  rewrite andb_true_iff. intros [Ha Hs].
  destruct (bad a).
  - destruct b; [by apply IH |].
    rewrite StrFacts.all_chars_app, Hrep, IH; done.
  - simpl. rewrite Ha, IH; done.
Qed.

Lemma no_repeat_suffix c u s :
  no_repeat c (u +:+ s) = true → no_repeat c s = true.
Proof.
  induction u as [|a u IH]; [done |].
  rewrite StrFacts.app_cons. simpl. rewrite andb_true_iff. intros [_ H]. auto.
Qed.

Lemma no_repeat_prefix c s u :
  no_repeat c (s +:+ u) = true → no_repeat c s = true.
Proof.
  induction s as [|a s IH]; [done |].
  rewrite StrFacts.app_cons. simpl. rewrite !andb_true_iff. intros [Ha H].
  split; [| auto].
  destruct s as [|b s]; [simpl; by rewrite andb_false_r |].
  by rewrite StrFacts.app_cons in Ha.
Qed.

Lemma eqb_ascii_sym a b : eqb_ascii a b = eqb_ascii b a.
Proof.
  unfold eqb_ascii. destruct (decide (a = b)) as [-> | Hne]; [done |].
  rewrite !bool_decide_eq_false_2; done.
Qed.

Lemma head_free_single c a s :
  head_free (String c "") (String a s) = negb (eqb_ascii a c).
Proof. simpl. by rewrite orb_false_r, eqb_ascii_sym. Qed.

Lemma no_repeat_cons c a s :
  no_repeat c (String a s)
  = negb (eqb_ascii a c && negb (head_free (String c "") s)) && no_repeat c s.
Proof. reflexivity. Qed.

(** Collapsing the runs of underscores leaves no two in a row; after an
    underscore the output does not start with one. *)
Lemma collapse_no_repeat b s :
  no_repeat "_" (PyRe.sub_runs is_underscore "_" b s) = true
  ∧ (b = true →
     head_free "_" (PyRe.sub_runs is_underscore "_" b s) = true).
Proof.
  revert b. induction s as [|a s IH]; intros b; [done |].
  cbn [PyRe.sub_runs].
  destruct (is_underscore a) eqn:E.
  - destruct b.
    + apply IH.
    + destruct (IH true) as [Hn Hh]. split; [| done].
      rewrite StrFacts.app_cons, StrFacts.app_nil_l, no_repeat_cons.
      rewrite Hn, Hh by done. done.
  - destruct (IH false) as [Hn _].
    rewrite no_repeat_cons, head_free_single, Hn.
    unfold is_underscore in E. rewrite E. done.
Qed.

Lemma collapse_id b s :
  no_repeat "_" s = true → (b = true → head_free "_" s = true) →
  PyRe.sub_runs is_underscore "_" b s = s.
Proof.
  revert b. induction s as [|a s IH]; intros b; [done |].
  rewrite no_repeat_cons, head_free_single, andb_true_iff.
  cbn [PyRe.sub_runs]. intros [Ha Hs] Hb.
  destruct (is_underscore a) eqn:E; unfold is_underscore in E; rewrite E in *.
  - destruct b; [by specialize (Hb eq_refl) |].
    rewrite StrFacts.app_cons, StrFacts.app_nil_l. f_equal.
    + symmetry. by apply StrFacts.eqb_ascii_true.
    + apply IH; [done |]. intros _.
      simpl in Ha. by apply negb_true_iff, negb_false_iff in Ha.
  - f_equal. by apply IH.
Qed.

Lemma ascii_fold_id decompose s :
  all_chars is_ascii s = true → ascii_fold decompose s = s.
Proof.
  induction s as [|a s IH]; simpl; [done |].
  rewrite andb_true_iff. intros [-> Hs]. by rewrite IH.
Qed.

Lemma sub_runs_chars_from (Q P : ascii → bool) bad rep b s :
  all_chars P rep = true →
  (∀ a, Q a = true → bad a = false → P a = true) →
  all_chars Q s = true →
  all_chars P (PyRe.sub_runs bad rep b s) = true.
Proof.
  intros Hrep Hgood. revert b.
  induction s as [|a s IH]; intros b; simpl; [done |].
  rewrite andb_true_iff. intros [Ha Hs].
  destruct (bad a) eqn:E.
  - destruct b; [by apply IH |].
    rewrite StrFacts.all_chars_app, Hrep, IH; done.
  - simpl. rewrite (Hgood _ Ha E), IH; done.
Qed.

Lemma all_chars_rstrip P cs s :
  all_chars P s = true → all_chars P (rstrip cs s) = true.
Proof.
  intros H. unfold rstrip. rewrite StrFacts.all_chars_rev.
  apply StrFacts.all_chars_lstrip. by rewrite StrFacts.all_chars_rev.
Qed.

Lemma no_repeat_strip c cs s :
  no_repeat c s = true → no_repeat c (strip cs s) = true.
Proof.
  intros H. unfold strip.
  destruct (StrMore.rstrip_prefix cs (lstrip cs s)) as [u Hu].
  apply (no_repeat_prefix c _ u). rewrite <- Hu.
  destruct (StrMore.lstrip_suffix cs s) as [v Hv].
  apply (no_repeat_suffix c v). by rewrite <- Hv.
Qed.

(** The shape of every result of [sanitize_name]. *)
Lemma sanitize_name_shape decompose name max_len :
  all_chars folder_char (sanitize_name decompose name max_len) = true
  ∧ no_repeat "_" (sanitize_name decompose name max_len) = true
  ∧ head_free "_-" (sanitize_name decompose name max_len) = true
  ∧ last_free "_-" (sanitize_name decompose name max_len) = true
  ∧ (String.length (sanitize_name decompose name max_len) ≤ max_len
     ∨ sanitize_name decompose name max_len = "unknown").
Proof.
  unfold sanitize_name. cbv zeta.
  change (λ a, eqb_ascii a "_") with is_underscore.
  set (n2 := PyRe.sub_each illegal_char "_" (ascii_fold decompose (default "" name))).
  set (n4 := PyRe.sub_runs is_underscore "_" false
               (PyRe.sub_runs space_or_dot "_" false n2)).
  set (n5 := strip "_-" n4).
  assert (all_chars folder_char n5 = true) as Hc5.
  { apply StrFacts.all_chars_strip. apply sub_runs_keeps; [done |].
    apply (sub_runs_chars_from (λ a, negb (illegal_char a))); [done | |].
    - intros a Ha. apply negb_true_iff in Ha. by apply folder_char_legal.
    - apply sub_each_chars; [done |]. intros a Ha. by rewrite Ha. }
  assert (no_repeat "_" n5 = true) as Hn5.
  { apply no_repeat_strip. apply collapse_no_repeat. }
  assert (head_free "_-" n5 = true) as Hh5 by apply StrMore.strip_head_free.
  assert (last_free "_-" n5 = true) as Hl5 by apply StrMore.strip_last_free.
  set (n6 := if max_len <? String.length n5
             then rstrip "_-" (take max_len n5) else n5).
  assert (all_chars folder_char n6 = true
          ∧ no_repeat "_" n6 = true
          ∧ head_free "_-" n6 = true
          ∧ last_free "_-" n6 = true
          ∧ String.length n6 ≤ max_len) as (Hc & Hn & Hh & Hl & Hlen).
  { unfold n6. destruct (max_len <? String.length n5) eqn:E.
    - destruct (StrMore.take_prefix max_len n5) as [u Hu].
      destruct (StrMore.rstrip_prefix "_-" (take max_len n5)) as [v Hv].
      split; [by apply all_chars_rstrip, StrFacts.all_chars_take |].
      split.
      { apply (no_repeat_prefix _ _ v). rewrite <- Hv.
        apply (no_repeat_prefix _ _ u). by rewrite <- Hu. }
      split.
      { apply (StrMore.head_free_prefix _ _ v). rewrite <- Hv.
        apply (StrMore.head_free_prefix _ _ u). by rewrite <- Hu. }
      split; [apply StrMore.rstrip_last_free |].
      pose proof (StrMore.length_rstrip "_-" (take max_len n5)).
      pose proof (StrMore.length_take max_len n5). lia.
    - apply Nat.ltb_ge in E. done. }
  destruct (truthy n6).
  - repeat split; try done. by left.
  - repeat split; try done. by right.
Qed.

(** X3: the folder name made by [sanitize_name] is never empty, consists
    only of ASCII letters, digits, "-" and "_" (no dot, space or path
    separator), has no two underscores in a row and neither begins nor ends
    with "_" or "-". *)
Theorem sanitize_name_folder_safe
    (decompose : ascii → string) (name : option string) (max_len : nat) :
  sanitize_name decompose name max_len ≠ ""
  ∧ all_chars folder_char (sanitize_name decompose name max_len) = true
  ∧ no_repeat "_" (sanitize_name decompose name max_len) = true
  ∧ head_free "_-" (sanitize_name decompose name max_len) = true
  ∧ last_free "_-" (sanitize_name decompose name max_len) = true.
Proof.
  destruct (sanitize_name_shape decompose name max_len) as (? & ? & ? & ? & _).
  split; [apply FolderingSpec.sanitize_name_nonempty | done].
Qed.

(** X4: the result of [sanitize_name] is at most [max_len] characters long,
    unless it is the fallback "unknown", which is returned whole even when
    [max_len] is below 7. *)
Theorem sanitize_name_length
    (decompose : ascii → string) (name : option string) (max_len : nat) :
  String.length (sanitize_name decompose name max_len) ≤ Nat.max max_len 7
  ∧ (String.length (sanitize_name decompose name max_len) ≤ max_len
     ∨ sanitize_name decompose name max_len = "unknown")
  ∧ sanitize_name decompose (Some "") 3 = "unknown".
Proof.
  destruct (sanitize_name_shape decompose name max_len)
    as (_ & _ & _ & _ & [Hlen | Hu]).
  - split; [lia |]. split; [by left | done].
  - split; [rewrite Hu; simpl; lia |]. split; [by right | done].
Qed.

(** X5: for a length limit of at least 7 (the default is 80)
    [sanitize_name] is idempotent. *)
Theorem sanitize_name_idempotent
    (decompose : ascii → string) (name : option string) (max_len : nat) :
  7 ≤ max_len →
  sanitize_name decompose
    (Some (sanitize_name decompose name max_len)) max_len
  = sanitize_name decompose name max_len.
Proof.
  intros Hmax.
  destruct (sanitize_name_shape decompose name max_len)
    as (Hc & Hn & Hh & Hl & Hlen).
  pose proof (FolderingSpec.sanitize_name_nonempty decompose name max_len) as Hne.
  set (r := sanitize_name decompose name max_len) in *.
  assert (String.length r ≤ max_len) as Hlen'.
  { destruct Hlen as [? | ->]; [done | simpl; lia]. }
  unfold sanitize_name at 1. cbv zeta.
  change (λ a, eqb_ascii a "_") with is_underscore. simpl default.
  rewrite ascii_fold_id.
  2:{ eapply StrFacts.all_chars_impl; [apply folder_char_ascii | done]. }
  rewrite StrMore.sub_each_id.
  2:{ eapply StrFacts.all_chars_impl; [| apply Hc].
      intros a Ha. by rewrite (folder_char_not_illegal _ Ha). }
  rewrite (StrMore.sub_runs_id space_or_dot).
  2:{ eapply StrFacts.all_chars_impl; [| apply Hc].
      intros a Ha. by rewrite (folder_char_not_space_or_dot _ Ha). }
  rewrite collapse_id by done.
  rewrite StrMore.strip_id by done.
  apply Nat.ltb_ge in Hlen'. rewrite Hlen'.
  by apply StrFacts.truthy_true in Hne as ->.
Qed.

(** A name with accents dropped, punctuation and spaces. *)
Lemma sanitize_name_idempotent_witness :
  sanitize_name (λ _, "")
    (Some (sanitize_name (λ _, "") (Some "Birthday  Party!! (2024).") 80)) 80
  = sanitize_name (λ _, "") (Some "Birthday  Party!! (2024).") 80.
Proof.
  apply (sanitize_name_idempotent (λ _, "")
    (Some "Birthday  Party!! (2024).") 80). lia.
Defined.

Example sanitize_name_party :
  sanitize_name (λ _, "") (Some "Birthday  Party!! (2024).") 80
  = "Birthday_Party_2024".
Proof. vm_compute. reflexivity. Qed.

End SanitizeName.


(** ** [guess_name_and_ext_from_url], pathlib names, [unique_path] again *)

Module NamesMore.
Import PyStr Url Naming.

Lemma lower_char_idem a : lower_char (lower_char a) = lower_char a.
Proof. destruct a as [[] [] [] [] [] [] [] []]; vm_compute; done. Qed.

Lemma lower_idem s : lower (lower s) = lower s.
Proof.
  induction s as [|a s IH]; simpl; [done |]. by rewrite lower_char_idem, IH.
Qed.

Lemma cut_query_clean s :
  all_chars (λ a, negb (eqb_ascii a "?" || eqb_ascii a "#"))
    (PyRe.cut_query s) = true.
Proof.
  induction s as [|a s IH]; simpl; [done |].
  destruct (eqb_ascii a "?" || eqb_ascii a "#") eqn:E; [done |].
  simpl. by rewrite E, IH.
Qed.

Lemma lower_char_query a :
  negb (eqb_ascii a "?" || eqb_ascii a "#") = true →
  negb (eqb_ascii (lower_char a) "?" || eqb_ascii (lower_char a) "#") = true.
Proof. destruct a as [[] [] [] [] [] [] [] []]; vm_compute; done. Qed.

(** X6: the extension [guess_name_and_ext_from_url] reads off a URL is a dot
    followed by lower-case text without ".", "/", "?" or "#", and never
    ".jpeg" or ".jpe", which are given as ".jpg"; a path ending in "/" (or
    empty) gives ("download", ".jpg") and a last segment without dot gives
    the extension ".jpg". *)
Theorem guess_name_and_ext_from_url_ext
    (urlparse_path : string → string) (url : string) :
  (∃ e, snd (guess_name_and_ext_from_url urlparse_path url) = String "." e
        ∧ lower e = e
        ∧ e ≠ "jpeg" ∧ e ≠ "jpe"
        ∧ all_chars (is_not ".") e = true
        ∧ all_chars (is_not "/") e = true
        ∧ all_chars (λ a, negb (eqb_ascii a "?" || eqb_ascii a "#")) e = true)
  ∧ (basename (urlparse_path url) = "" →
     guess_name_and_ext_from_url urlparse_path url = ("download", ".jpg"))
  ∧ (rpartition "." (PyRe.cut_query (basename (urlparse_path url))) = None →
     snd (guess_name_and_ext_from_url urlparse_path url) = ".jpg").
Proof.
  unfold guess_name_and_ext_from_url.
  set (path := urlparse_path url).
  split; [| split].
  - destruct (truthy (basename path)); simpl;
      [| exists "jpg"; repeat split; done].
    pose proof (UrlFacts.cut_query_chars _ _ (UrlFacts.basename_no_slash path))
      as Hslash.
    pose proof (cut_query_clean (basename path)) as Hq.
    destruct (rpartition "." (PyRe.cut_query (basename path))) as [[l r] |] eqn:E;
      simpl; [| exists "jpg"; repeat split; done].
    destruct (in_list (lower r) ["jpeg"; "jpe"; "jpg"]) eqn:Ein;
      [exists "jpg"; repeat split; done |].
    exists (lower r).
    apply ContentTypeSpec.in_list_false in Ein.
    split; [done |]. split; [apply lower_idem |].
    split; [intros Heq; apply Ein; rewrite Heq; by left |].
    split; [intros Heq; apply Ein; rewrite Heq; right; by left |].
    split.
    { apply StrFacts.all_chars_lower; [apply UrlFacts.lower_char_dot |].
      by apply StrFacts.rpartition_right in E. }
    split.
    { apply StrFacts.all_chars_lower; [apply UrlFacts.lower_char_slash |].
      by apply (StrFacts.rpartition_parts _ _ _ _ _ E). }
    apply StrFacts.all_chars_lower; [apply lower_char_query |].
    by apply (StrFacts.rpartition_parts _ _ _ _ _ E).
  - intros ->. done.
  - intros ->. by destruct (truthy (basename path)).
Qed.

Lemma guess_name_and_ext_from_url_ext_witness :
  guess_name_and_ext_from_url Sample.path_of "https://example.org/gallery/"
  = ("download", ".jpg").
Proof.
  apply (proj1 (proj2 (guess_name_and_ext_from_url_ext Sample.path_of
    "https://example.org/gallery/"))).
  reflexivity.
Defined.

Example guess_query_jpeg :
  guess_name_and_ext_from_url Sample.path_of
    "https://cdn.example.org/p/Photo.JPEG?size=l#top" = ("Photo", ".jpg").
Proof. vm_compute. reflexivity. Qed.

Lemma split_pieces c s : Forall (λ p, all_chars (is_not c) p = true) (split c s).
Proof.
  induction s as [|a s IH]; simpl; [by repeat constructor |].
  destruct (eqb_ascii a c) eqn:E; [by constructor |].
  destruct (split c s) as [|p ps].
  { constructor; [| constructor]. simpl. unfold is_not. by rewrite E. }
  inversion IH as [|?? Hp Hps]; subst. constructor; [| done].
  simpl. unfold is_not at 1. by rewrite E, Hp.
Qed.

Lemma name_no_slash p : all_chars (is_not "/") (PyPath.name p) = true.
Proof.
  unfold PyPath.name.
  pose proof (split_pieces "/" p) as H.
  destruct (last (filter _ (split "/" p))) as [q |] eqn:E; [| done]. simpl.
  apply last_filter_Some in E as (l1 & l2 & Hl & _).
  rewrite Hl in H. apply Forall_app in H as [_ H].
  by inversion H.
Qed.

(** X7: [Path(p).stem] and [Path(p).suffix] put together give [Path(p).name]
    back; the name contains no "/"; the suffix is empty or a dot followed by
    non-empty text without dots; the stem of a non-empty name is not
    empty. *)
Theorem path_stem_suffix_roundtrip (p : string) :
  PyPath.stem p +:+ PyPath.suffix p = PyPath.name p
  ∧ all_chars (is_not "/") (PyPath.name p) = true
  ∧ (PyPath.suffix p = ""
     ∨ ∃ e, PyPath.suffix p = String "." e ∧ e ≠ ""
            ∧ all_chars (is_not ".") e = true)
  ∧ (PyPath.name p ≠ "" → PyPath.stem p ≠ "").
Proof.
  split; [apply NamingSpec.stem_suffix_name |].
  split; [apply name_no_slash |].
  unfold PyPath.stem, PyPath.suffix, PyPath.stem_of_name, PyPath.suffix_of_name.
  destruct (rpartition "." (PyPath.name p)) as [[l r] |] eqn:E.
  - destruct (truthy l) eqn:El, (truthy r) eqn:Er; simpl; try (split; [by left | done]).
    split.
    + right. exists r. split; [done |]. split; [by apply StrFacts.truthy_true |].
      by apply StrFacts.rpartition_right in E.
    + intros _. by apply StrFacts.truthy_true.
  - split; [by left | done].
Qed.

Lemma path_stem_suffix_roundtrip_witness : PyPath.stem "dir/archive.tar.gz" ≠ "".
Proof.
  apply (proj2 (proj2 (proj2 (path_stem_suffix_roundtrip "dir/archive.tar.gz")))).
  vm_compute. discriminate.
Defined.

Example path_tar_gz :
  PyPath.name "dir/archive.tar.gz" = "archive.tar.gz"
  ∧ PyPath.stem "dir/archive.tar.gz" = "archive.tar"
  ∧ PyPath.suffix "dir/archive.tar.gz" = ".gz"
  ∧ PyPath.suffix ".bashrc" = "" ∧ PyPath.suffix "photo." = "".
Proof. vm_compute. repeat split; reflexivity. Qed.

(** X8: when the wanted name is free, [unique_path] returns it unchanged;
    and once the returned file exists, asking again for the same name
    returns another one. *)
Theorem unique_path_no_collision (dir : gset string) (filename : string) :
  (exists_in dir (PyPath.name filename) = false →
   unique_path dir filename = PyPath.name filename)
  ∧ unique_path ({[ unique_path dir filename ]} ∪ dir) filename
    ≠ unique_path dir filename.
Proof.
  split.
  - intros Hfree.
    destruct (NamingFacts.unique_path_first dir filename) as (k & Hk & _ & Hbusy).
    destruct k as [|k]; [rewrite Hk; apply NamingSpec.candidate_0_name |].
    specialize (Hbusy 0 ltac:(lia)).
    rewrite NamingSpec.candidate_0_name in Hbusy. congruence.
  - intros Heq.
    destruct (NamingFacts.unique_path_first
                ({[ unique_path dir filename ]} ∪ dir) filename)
      as (_ & _ & Hfree & _).
    apply NamingFacts.exists_in_false in Hfree as (_ & _ & Hnot).
    apply Hnot. rewrite Heq. set_solver.
Qed.

Lemma unique_path_no_collision_witness :
  unique_path {[ "b.jpg" ]} "a.jpg" = PyPath.name "a.jpg".
Proof.
  apply (proj1 (unique_path_no_collision {[ "b.jpg" ]} "a.jpg")).
  vm_compute. reflexivity.
Defined.

End NamesMore.


(** ** Fetching: what is written, what is kept *)

Module FetchMore.
Import PyStr Url Fetch.

Lemma write_fresh_subseteq st n c :
  dir st !! n = None → dir st ⊆ dir (write_file n c st).
Proof. intros H. simpl. by apply insert_subseteq. Qed.

Section Download.
Variable w : world.
Variable guess_ext : option string → string.

(** What an attempt does, case by case. *)
Lemma attempt_cases url stem ext st :
  (attempt w guess_ext url stem ext st = (None, count_get st url))
  ∨ (∃ status ct chunks complete n,
       http_get w url (gets st) = Response status ct chunks complete
       ∧ raise_for_status status = false
       ∧ dir st !! n = None
       ∧ n ≠ ""
       ∧ attempt w guess_ext url stem ext st
         = (if complete then Some n else None,
            write_file n (Raw (String.concat "" chunks)) (count_get st url))).
Proof.
  unfold attempt.
  destruct (http_get w url (gets st)) as [| status ct chunks complete];
    [by left |].
  destruct (raise_for_status status) eqn:Es; [by left |].
  set (n := unique_name (count_get st url) _).
  destruct (write_ok w n); [| by left].
  right. exists status, ct, chunks, complete, n.
  split; [done |]. split; [done |].
  split; [apply (FetchSpec.unique_name_fresh (count_get st url)) |].
  split; [apply FetchSpec.unique_name_nonempty |].
  by destruct complete.
Qed.

Lemma attempt_keeps url stem ext st :
  dir st ⊆ dir (snd (attempt w guess_ext url stem ext st)).
Proof.
  destruct (attempt_cases url stem ext st)
    as [-> | (status & ct & chunks & complete & n & _ & _ & Hn & _ & ->)].
  - done.
  - simpl. by apply insert_subseteq.
Qed.

Lemma attempts_keeps n url stem ext st :
  dir st ⊆ dir (snd (attempts w guess_ext n url stem ext st))
  ∧ gets st ≤ gets (snd (attempts w guess_ext n url stem ext st))
  ∧ gets (snd (attempts w guess_ext n url stem ext st)) ≤ gets st + n.
Proof.
  revert st. induction n as [|n IH]; intros st; simpl.
  - split; [done | lia].
  - pose proof (attempt_keeps url stem ext st) as Hk.
    pose proof (FetchSpec.attempt_gets w guess_ext url stem ext st) as Hg.
    destruct (attempt w guess_ext url stem ext st) as [[name |] st1]; simpl in *.
    + split; [done | lia].
    + destruct (IH st1) as (Hd & Hlo & Hhi).
      split; [by etrans |]. lia.
Qed.

(** The successful end of the retry loop. *)
Lemma attempts_first_success n url stem ext st name st' :
  attempts w guess_ext n url stem ext st = (name, st') → name ≠ "" →
  ∃ k status ct chunks,
    k < n
    ∧ http_get w url (gets st + k) = Response status ct chunks true
    ∧ raise_for_status status = false
    ∧ gets st' = gets st + S k
    ∧ dir st' !! name = Some (Raw (String.concat "" chunks))
    ∧ dir st !! name = None.
Proof.
  revert st. induction n as [|n IH]; intros st; simpl.
  - intros [= <- _]. done.
  - pose proof (attempt_keeps url stem ext st) as Hk.
    pose proof (FetchSpec.attempt_gets w guess_ext url stem ext st) as Hg.
    destruct (attempt_cases url stem ext st)
      as [E | (status & ct & chunks & complete & m & Hget & Hs & Hm & _ & E)];
      rewrite E in *; simpl in *.
    + intros Ha Hname.
      destruct (IH _ Ha Hname) as (k & status & ct & chunks & ? & Hget & ? & ? & ? & ?).
      exists (S k), status, ct, chunks. simpl in *.
      replace (gets st + S k) with (S (gets st + k)) by lia.
      repeat split; try done; lia.
    + destruct complete.
      * intros [= <- <-] _. exists 0, status, ct, chunks.
        rewrite Nat.add_0_r. simpl. rewrite lookup_insert_eq.
        repeat split; try done; lia.
      * intros Ha Hname.
        destruct (IH _ Ha Hname)
          as (k & status' & ct' & chunks' & ? & Hget' & ? & ? & ? & Hnone).
        exists (S k), status', ct', chunks'. simpl in *.
        replace (gets st + S k) with (S (gets st + k)) by lia.
        repeat split; try done; try lia.
        destruct (dir st !! name) eqn:Eold; [| done].
        eapply lookup_weaken in Eold; [| exact Hk]. simpl in Eold. congruence.
Qed.

End Download.

(** X9: [download_http_image] never overwrites or removes a file of the
    images directory, and issues at most [retries] GET requests; with
    [retries] zero or negative it issues none and returns the empty name. *)
Theorem download_keeps_files
    (w : world) (guess_ext : option string → string)
    (url : string) (retries : Z) (st : state) :
  dir st ⊆ dir (snd (download_http_image w guess_ext url retries st))
  ∧ gets st ≤ gets (snd (download_http_image w guess_ext url retries st))
  ∧ gets (snd (download_http_image w guess_ext url retries st))
    ≤ gets st + Z.to_nat retries
  ∧ ((retries ≤ 0)%Z →
     download_http_image w guess_ext url retries st
     = ("", log (EvWarn ("Failed to download " +:+ url)) st)).
Proof.
  unfold download_http_image.
  destruct (url_stem_ext w url) as [stem ext].
  destruct (attempts_keeps w guess_ext (Z.to_nat retries) url stem ext st)
    as (? & ? & ?).
  repeat split; try done.
  intros Hr. replace (Z.to_nat retries) with 0 by lia. done.
Qed.

Lemma download_keeps_files_witness :
  download_http_image Sample.mislabelled
    (DownloadImages.guess_ext_from_content_type ContentType.cpython_guess_extension)
    "https://example.org/a/photo.png" 0 Sample.empty_state
  = ("", log (EvWarn "Failed to download https://example.org/a/photo.png")
           Sample.empty_state).
Proof.
  apply (proj2 (proj2 (proj2 (download_keeps_files Sample.mislabelled
    (DownloadImages.guess_ext_from_content_type ContentType.cpython_guess_extension)
    "https://example.org/a/photo.png" 0 Sample.empty_state)))).
  lia.
Defined.

(** X10: when [download_http_image] returns a name, that name was free
    before the call and now holds the whole body of the first response that
    had no error status and was streamed to its end; every earlier attempt
    was made, none after it. *)
Theorem download_success
    (w : world) (guess_ext : option string → string)
    (url : string) (retries : Z) (st : state) (name : string) (st' : state) :
  download_http_image w guess_ext url retries st = (name, st') →
  name ≠ "" →
  ∃ k status ct chunks,
    k < Z.to_nat retries
    ∧ http_get w url (gets st + k) = Response status ct chunks true
    ∧ raise_for_status status = false
    ∧ gets st' = gets st + S k
    ∧ dir st' !! name = Some (Raw (String.concat "" chunks))
    ∧ dir st !! name = None.
Proof.
  unfold download_http_image.
  destruct (url_stem_ext w url) as [stem ext].
  apply attempts_first_success.
Qed.

Lemma download_success_witness :
  ∃ k status ct chunks,
    k < Z.to_nat 3
    ∧ http_get Sample.mislabelled "https://example.org/a/photo.png"
        (gets Sample.empty_state + k) = Response status ct chunks true
    ∧ raise_for_status status = false
    ∧ gets {| dir := {[ "photo.png" := Raw "PNG" ]}; gets := 1;
              trace := [EvWrite "photo.png";
                        EvGet "https://example.org/a/photo.png"] |}
      = gets Sample.empty_state + S k
    ∧ dir {| dir := {[ "photo.png" := Raw "PNG" ]}; gets := 1;
             trace := [EvWrite "photo.png";
                       EvGet "https://example.org/a/photo.png"] |}
        !! "photo.png" = Some (Raw (String.concat "" chunks))
    ∧ dir Sample.empty_state !! "photo.png" = None.
Proof.
  apply (download_success Sample.mislabelled
    (DownloadImages.guess_ext_from_content_type ContentType.cpython_guess_extension)
    "https://example.org/a/photo.png" 3 Sample.empty_state).
  - vm_compute. reflexivity.
  - discriminate.
Defined.

End FetchMore.


(** ** Data URLs, local files and the classification of a reference *)

Module ReferenceMore.
Import PyStr Url Fetch.

Section Reference.
Variable w : world.
Variable guess_ext : option string → string.

Lemma save_data_url_cases data_url url_hash st :
  save_data_url w guess_ext data_url url_hash st = ("", st)
  ∨ (∃ header data payload n,
       partition "," data_url = Some (header, data)
       ∧ (if from_option snd false (data_header header)
          then b64decode w data = Some payload else payload = data)
       ∧ n ≠ "" ∧ dir st !! n = None
       ∧ save_data_url w guess_ext data_url url_hash st
         = (n, write_file n (Raw payload) st)).
Proof.
  unfold save_data_url.
  destruct (partition "," data_url) as [[header data] |]; [| by left].
  set (n := unique_name st _).
  destruct (from_option snd false (data_header header)) eqn:Eb.
  - destruct (b64decode w data) as [payload |] eqn:Ed; [| by left].
    destruct (write_ok w n); [| by left].
    right. exists header, data, payload, n. rewrite Eb.
    repeat split; try done.
    + apply FetchSpec.unique_name_nonempty.
    + apply FetchSpec.unique_name_fresh.
  - destruct (write_ok w n); [| by left].
    right. exists header, data, data, n. rewrite Eb.
    repeat split; try done.
    + apply FetchSpec.unique_name_nonempty.
    + apply FetchSpec.unique_name_fresh.
Qed.

Lemma copy_local_cases url st :
  copy_local w url st
    = Returned ("", log (EvWarn ("Unsupported/invalid URL: " +:+ url)) st)
  ∨ (∃ e, copy_local w url st = Raised e)
  ∨ (∃ bytes n,
       local_file w url = Readable bytes ∧ n ≠ "" ∧ dir st !! n = None
       ∧ copy_local w url st = Returned (n, write_file n (Raw bytes) st)).
Proof.
  unfold copy_local. destruct (local_file w url) as [| | bytes].
  - by left.
  - right. left. by eexists.
  - set (n := unique_name st _). destruct (write_ok w n).
    + right. right. exists bytes, n. repeat split; try done.
      * apply FetchSpec.unique_name_nonempty.
      * apply FetchSpec.unique_name_fresh.
    + right. left. by eexists.
Qed.

End Reference.



Example save_data_url_png :
  save_data_url Sample.offline
    (DownloadImages.guess_ext_from_content_type ContentType.cpython_guess_extension)
    "data:image/png;base64,iVBORw==" "0123456789abcdef" Sample.empty_state
  = ("img_0123456789.png",
     {| dir := {[ "img_0123456789.png" := Raw "iVBORw==" ]}; gets := 0;
        trace := [EvWrite "img_0123456789.png"] |}).
Proof. vm_compute. reflexivity. Qed.

Lemma fetch_keeps
    (w : world) (guess_ext : option string → string)
    (url : string) (retries : Z) (st : state) (name : string) (st' : state) :
  fetch w guess_ext url retries st = Returned (name, st') →
  dir st ⊆ dir st'
  ∧ (name ≠ "" → dir st !! name = None ∧ is_Some (dir st' !! name))
  ∧ (url = "" → name = "" ∧ st' = st)
  ∧ (gets st' ≠ gets st →
     startswith "data:" url = false
     ∧ in_list (urlparse_scheme w url) ["http"; "https"] = true).
Proof.
  unfold fetch. destruct (truthy url) eqn:Eu.
  2:{ intros [= <- <-]. repeat split; done. }
  assert (url ≠ "") as Hne by by apply StrFacts.truthy_true.
  destruct (startswith "data:" url) eqn:Ed.
  { intros [= H].
    destruct (save_data_url_cases w guess_ext url (hexdigest (sha1 w url)) st)
      as [E | (header & data & payload & n & _ & _ & Hn & Hfree & E)];
      rewrite E in H; injection H as <- <-.
    - repeat split; done.
    - simpl. split; [by apply insert_subseteq |].
      split; [intros _; split; [done | rewrite lookup_insert_eq; by eexists] |].
      split; done. }
  destruct (in_list (urlparse_scheme w url) ["http"; "https"]) eqn:Es.
  { intros [= H]. unfold download_http_image in H.
    destruct (url_stem_ext w url) as [stem ext].
    pose proof (FetchMore.attempts_keeps w guess_ext (Z.to_nat retries)
                  url stem ext st) as (Hk & _).
    rewrite H in Hk. simpl in Hk. split; [done |]. split; [| done].
    intros Hname.
    destruct (FetchMore.attempts_first_success w guess_ext _ _ _ _ _ _ _ H Hname)
      as (k & status & ct & chunks & _ & _ & _ & _ & Hin & Hout).
    split; [done | by eexists]. }
  intros H.
  destruct (copy_local_cases w url st)
    as [E | [[e E] | (bytes & n & _ & Hn & Hfree & E)]];
    rewrite E in H; [| done |]; injection H as <- <-.
  - repeat split; done.
  - simpl. split; [by apply insert_subseteq |].
    split; [intros _; split; [done | rewrite lookup_insert_eq; by eexists] |].
    split; done.
Qed.


(** X12: whatever the reference, a fetch that returns keeps every file of
    the images directory as it was; a non-empty name it returns was free
    before and is a file afterwards; an empty reference changes nothing; and
    a GET request is issued only for a reference that is no data URL and
    whose scheme is http or https. *)
Theorem fetch_result
    (w : world) (guess_ext : option string → string)
    (url : string) (retries : Z) (st : state) (name : string) (st' : state) :
  fetch w guess_ext url retries st = Returned (name, st') →
  dir st ⊆ dir st'
  ∧ (name ≠ "" → dir st !! name = None ∧ is_Some (dir st' !! name))
  ∧ (url = "" → name = "" ∧ st' = st)
  ∧ (gets st' ≠ gets st →
     startswith "data:" url = false
     ∧ in_list (urlparse_scheme w url) ["http"; "https"] = true).
Proof. apply fetch_keeps. Qed.

Lemma fetch_result_witness :
  dir Sample.empty_state
    ⊆ dir {| dir := {[ "img_0000000000.png" := Raw "iVBORw==" ]}; gets := 0;
             trace := [EvWrite "img_0000000000.png"] |}
  ∧ ("img_0000000000.png" ≠ "" →
     dir Sample.empty_state !! "img_0000000000.png" = None
     ∧ is_Some (dir {| dir := {[ "img_0000000000.png" := Raw "iVBORw==" ]};
                       gets := 0; trace := [EvWrite "img_0000000000.png"] |}
                  !! "img_0000000000.png"))
  ∧ ("data:image/png;base64,iVBORw==" = "" →
     "img_0000000000.png" = ""
     ∧ {| dir := {[ "img_0000000000.png" := Raw "iVBORw==" ]}; gets := 0;
          trace := [EvWrite "img_0000000000.png"] |} = Sample.empty_state)
  ∧ (gets {| dir := {[ "img_0000000000.png" := Raw "iVBORw==" ]}; gets := 0;
             trace := [EvWrite "img_0000000000.png"] |}
     ≠ gets Sample.empty_state →
     startswith "data:" "data:image/png;base64,iVBORw==" = false
     ∧ in_list (urlparse_scheme Sample.offline "data:image/png;base64,iVBORw==")
         ["http"; "https"] = true).
Proof.
  apply (fetch_result Sample.offline
    (DownloadImages.guess_ext_from_content_type ContentType.cpython_guess_extension)
    "data:image/png;base64,iVBORw==" 3 Sample.empty_state).
  vm_compute. reflexivity.
Defined.

End ReferenceMore.


(** ** Rows, and what the batch loop keeps *)

Module PipelineMore.
Import PyStr Fetch Convert Table.

Lemma row_get_set_eq k v r : row_get k (row_set k v r) = Some v.
Proof.
  unfold row_get. induction r as [|[k' v'] r IH]; simpl.
  - by rewrite bool_decide_eq_true_2.
  - destruct (bool_decide (k' = k)) eqn:E; simpl.
    + by rewrite bool_decide_eq_true_2.
    + by rewrite E.
Qed.

Lemma row_get_set_ne k k' v r :
  k' ≠ k → row_get k' (row_set k v r) = row_get k' r.
Proof.
  intros Hne. unfold row_get. induction r as [|[k0 v0] r IH]; simpl.
  - by rewrite bool_decide_eq_false_2.
  - destruct (bool_decide (k0 = k)) eqn:E; simpl.
    + apply bool_decide_eq_true in E as ->.
      rewrite !bool_decide_eq_false_2; done.
    + destruct (bool_decide (k0 = k')); [done | apply IH].
Qed.

Lemma row_set_keys k v r :
  (row_set k v r).*1 = if bool_decide (k ∈ r.*1) then r.*1 else (r.*1 ++ [k])%list.
Proof.
  induction r as [|[k' v'] r IH]; [done |].
  cbn [row_set]. destruct (bool_decide (k' = k)) eqn:E.
  - apply bool_decide_eq_true in E as ->. rewrite !fmap_cons. cbn [fst].
    rewrite bool_decide_eq_true_2; [done | by left].
  - apply bool_decide_eq_false in E. rewrite !fmap_cons, IH. cbn [fst].
    destruct (bool_decide (k ∈ r.*1)) eqn:Ein.
    + apply bool_decide_eq_true in Ein.
      rewrite bool_decide_eq_true_2; [done | by right].
    + apply bool_decide_eq_false in Ein.
      rewrite bool_decide_eq_false_2; [done |].
      intros [? | ?]%elem_of_cons; [by subst | done].
Qed.

(** X13: setting a field of a row and reading it gives the value set; every
    other field reads as before; the columns keep their order, the new
    column going to the end when the row did not have it. *)
Theorem row_set_get (k k' v : string) (r : row) :
  row_get k (row_set k v r) = Some v
  ∧ (k' ≠ k → row_get k' (row_set k v r) = row_get k' r)
  ∧ (row_set k v r).*1
    = (if bool_decide (k ∈ r.*1) then r.*1 else (r.*1 ++ [k])%list).
Proof.
  split; [apply row_get_set_eq |].
  split; [apply row_get_set_ne | apply row_set_keys].
Qed.

Lemma row_set_get_witness :
  row_get "caption" (row_set "image_name" "a.jpg" [("url", "u"); ("caption", "c")])
  = row_get "caption" [("url", "u"); ("caption", "c")].
Proof.
  apply (proj1 (proj2 (row_set_get "image_name" "caption" "a.jpg"
    [("url", "u"); ("caption", "c")]))).
  discriminate.
Defined.


Lemma process_rows_keeps {R} (body : R → state → outcome (R * state)) rows :
  (∀ r st r' st', body r st = Returned (r', st') → dir st ⊆ dir st') →
  ∀ st out st', process_rows body rows st = Returned (out, st') →
                dir st ⊆ dir st'.
Proof.
  intros Hbody. induction rows as [|r rows IH]; intros st out st'; simpl.
  - by intros [= _ <-].
  - destruct (body r st) as [[r' st1] | e] eqn:E; [| done].
    destruct (process_rows body rows st1) as [[out' st2] | e] eqn:E'; [| done].
    intros [= _ <-]. etrans; [by eapply Hbody | by eapply IH].
Qed.

(** A conversion of a file that was not in [d] keeps the files of [d]. *)
Lemma convert_file_keeps w prepare filename target_ext st (d : gmap string content) :
  d ⊆ dir st → d !! filename = None →
  d ⊆ dir (snd (convert_file w prepare filename target_ext st)).
Proof.
  intros Hd Hn.
  destruct (ConvertSpec.convert_file_cases w prepare filename target_ext st)
    as [(_ & -> & _) | (c & im & fmt & im' & _ & _ & _ & ->)]; [done |].
  pose proof (ConvertSpec.destination_fresh filename target_ext st) as Hf.
  assert (d ⊆ <[destination filename target_ext st := Encoded fmt im']> (dir st))
    as Hins by (etrans; [exact Hd | by apply insert_subseteq]).
  simpl. destruct (unlink_ok w filename); simpl; [| done].
  apply map_subseteq_spec. intros i x Hi.
  assert (i ≠ filename) by (intros ->; congruence).
  rewrite lookup_delete_ne by done.
  by eapply lookup_weaken.
Qed.

Lemma maybe_convert_keeps w filename webp heic force st (d : gmap string content) :
  d ⊆ dir st → d !! filename = None →
  d ⊆ dir (snd (DownloadImagesAsJpgForce.maybe_convert_by_ext
                  w filename webp heic force st)).
Proof.
  intros Hd Hn. unfold DownloadImagesAsJpgForce.maybe_convert_by_ext,
    DownloadImagesAsJpgForce.convert_format.
  destruct (truthy force); [by apply convert_file_keeps |].
  destruct (endswith (lower filename) ".webp" && truthy webp);
    [by apply convert_file_keeps |].
  destruct ((endswith (lower filename) ".heic" || endswith (lower filename) ".heif")
            && truthy heic); [| done].
  destruct (heif_available w); [by apply convert_file_keeps | done].
Qed.

Lemma process_row_v1 w retries r st r' st' :
  DownloadImages.process_row w retries r st = Returned (r', st') →
  (∃ name, r' = row_set "image_name" name r) ∧ dir st ⊆ dir st'.
Proof.
  unfold DownloadImages.process_row.
  destruct (fetch w _ (row_url r) retries st) as [[n st1] | e] eqn:E; [| done].
  intros [= <- <-]. split; [by exists n |].
  by apply ReferenceMore.fetch_keeps in E as (? & _).
Qed.

Lemma process_row_v2 w retries webp r st r' st' :
  DownloadImagesAsJpg.process_row w retries webp r st = Returned (r', st') →
  (∃ name, r' = frame_set "image_name" name r) ∧ dir st ⊆ dir st'.
Proof.
  unfold DownloadImagesAsJpg.process_row.
  destruct (fetch w _ (frame_url r) retries st) as [[n st1] | e] eqn:E; [| done].
  apply ReferenceMore.fetch_keeps in E as (Hk & Hfresh & _).
  destruct (truthy n && endswith (lower n) ".webp" && truthy webp) eqn:Ec.
  - destruct (DownloadImagesAsJpg.convert_if_webp w n webp st1)
      as [n2 st2] eqn:Ecv.
    intros [= <- <-]. split; [by exists n2 |].
    assert (n ≠ "") as Hn.
    { apply StrFacts.truthy_true. by destruct (truthy n). }
    replace st2 with (snd (DownloadImagesAsJpg.convert_if_webp w n webp st1))
      by by rewrite Ecv.
    unfold DownloadImagesAsJpg.convert_if_webp.
    destruct (negb (endswith (lower n) ".webp")); [done |].
    apply convert_file_keeps; [done | by apply Hfresh].
  - intros [= <- <-]. split; [by exists n | done].
Qed.

Lemma process_row_v3 w retries webp heic force r st r' st' :
  DownloadImagesAsJpgForce.process_row w retries webp heic force r st
    = Returned (r', st') →
  (∃ name, r' = frame_set "image_name" name r) ∧ dir st ⊆ dir st'.
Proof.
  unfold DownloadImagesAsJpgForce.process_row.
  destruct (fetch w _ (frame_url r) retries st) as [[n st1] | e] eqn:E; [| done].
  apply ReferenceMore.fetch_keeps in E as (Hk & Hfresh & _).
  destruct (truthy n) eqn:Ec.
  - destruct (DownloadImagesAsJpgForce.maybe_convert_by_ext w n webp heic force st1)
      as [n2 st2] eqn:Ecv.
    intros [= <- <-]. split; [by exists n2 |].
    assert (n ≠ "") as Hn by by apply StrFacts.truthy_true.
    replace st2 with
      (snd (DownloadImagesAsJpgForce.maybe_convert_by_ext w n webp heic force st1))
      by by rewrite Ecv.
    apply maybe_convert_keeps; [done | by apply Hfresh].
  - intros [= <- <-]. split; [by exists n | done].
Qed.



(** X15: a run of [process_csv] that returns has kept every file that was in
    the images directory, with its content: nothing that was there is
    overwritten or removed, by any of the three download scripts; a
    conversion removes only the file fetched for the same row. *)
Theorem process_csv_keeps_files
    (w : world) (retries : Z) (webp heic force : string) (st : state) :
  (∀ rows out st',
     DownloadImages.process_csv w retries rows st = Returned (out, st') →
     dir st ⊆ dir st')
  ∧ (∀ rows out st',
       DownloadImagesAsJpg.process_csv w retries webp rows st
         = Returned (out, st') →
       dir st ⊆ dir st')
  ∧ (∀ rows out st',
       DownloadImagesAsJpgForce.process_csv w retries webp heic force rows st
         = Returned (out, st') →
       dir st ⊆ dir st').
Proof.
  split; [| split]; intros rows out st'.
  - apply process_rows_keeps. intros r s r' s' H.
    by apply process_row_v1 in H as [_ ?].
  - apply process_rows_keeps. intros r s r' s' H.
    by apply process_row_v2 in H as [_ ?].
  - apply process_rows_keeps. intros r s r' s' H.
    by apply process_row_v3 in H as [_ ?].
Qed.

Lemma process_csv_keeps_files_witness :
  dir Sample.rotated_webp_dir
  ⊆ dir {| dir := {[ "a.webp" := Encoded "WEBP" Sample.rotated;
                     "img_0000000000.png" := Raw "iVBORw==" ]};
           gets := 0; trace := [EvWrite "img_0000000000.png"] |}.
Proof.
  apply (proj2 (proj2 (process_csv_keeps_files Sample.offline 3 "jpg" "jpg" ""
    Sample.rotated_webp_dir))
    (tail Sample.locked_then_inline_frame)
    [[("url", Some "data:image/png;base64,iVBORw=="); ("caption", Some "second");
      ("image_name", Some "img_0000000000.png")]]).
  vm_compute. reflexivity.
Defined.

End PipelineMore.


(** ** Conversion: modes, frames, policies *)

Module ConvertMore.
Import PyStr Pil Convert DownloadImagesAsJpg DownloadImagesAsJpgForce.

Lemma exif_transpose_fields im :
  mode (exif_transpose im) = mode im
  ∧ transparency (exif_transpose im) = transparency im
  ∧ frame (exif_transpose im) = frame im.
Proof.
  unfold exif_transpose.
  by destruct ((2 <=? orientation im) && (orientation im <=? 8)).
Qed.

Lemma has_alpha_band_rgb im :
  in_list (mode im) ["RGB"; "RGBA"] = true →
  mode im = (if has_alpha_band im then "RGBA" else "RGB").
Proof.
  intros H. apply ContentTypeSpec.in_list_true in H.
  unfold has_alpha_band.
  repeat (apply elem_of_cons in H as [-> | H]); [done | done |].
  by apply elem_of_nil in H.
Qed.

Lemma prepare_rgb_jpeg fmt im :
  in_list (upper fmt) ["JPG"; "JPEG"] = true →
  fst (prepare_rgb_with_background fmt im) = "JPEG"
  ∧ mode (snd (prepare_rgb_with_background fmt im)) = "RGB"
  ∧ frame (snd (prepare_rgb_with_background fmt im)) = frame im.
Proof.
  intros H. unfold prepare_rgb_with_background. rewrite H.
  destruct (exif_transpose_fields im) as (_ & _ & Hf).
  destruct (has_transparency (exif_transpose im)); simpl; done.
Qed.

Lemma prepare_rgb_other fmt im :
  in_list (upper fmt) ["JPG"; "JPEG"] = false →
  fst (prepare_rgb_with_background fmt im) = upper fmt
  ∧ mode (snd (prepare_rgb_with_background fmt im))
    = (if has_alpha_band im then "RGBA" else "RGB")
  ∧ frame (snd (prepare_rgb_with_background fmt im)) = frame im.
Proof.
  intros H. unfold prepare_rgb_with_background. rewrite H.
  destruct (exif_transpose_fields im) as (Hm & _ & Hf).
  assert (has_alpha_band (exif_transpose im) = has_alpha_band im) as Ha
    by (unfold has_alpha_band; by rewrite Hm).
  destruct (in_list (mode (exif_transpose im)) ["RGB"; "RGBA"]) eqn:E; simpl.
  - rewrite <- Ha. split; [done |]. split; [| done].
    by apply has_alpha_band_rgb.
  - rewrite Ha. done.
Qed.

Lemma prepare_webp_jpeg target_ext im :
  in_list target_ext ["jpg"; "jpeg"] = true →
  fst (prepare_webp target_ext im) = "JPEG"
  ∧ mode (snd (prepare_webp target_ext im)) = "RGB"
  ∧ frame (snd (prepare_webp target_ext im)) = frame im.
Proof.
  intros H. unfold prepare_webp. rewrite H.
  destruct (has_transparency im); simpl; done.
Qed.

Lemma prepare_webp_other target_ext im :
  in_list target_ext ["jpg"; "jpeg"] = false →
  fst (prepare_webp target_ext im) = upper target_ext
  ∧ mode (snd (prepare_webp target_ext im))
    = (if has_alpha_band im then "RGBA" else "RGB")
  ∧ frame (snd (prepare_webp target_ext im)) = frame im.
Proof.
  intros H. unfold prepare_webp. rewrite H.
  destruct (in_list (mode im) ["RGB"; "RGBA"]) eqn:E; simpl.
  - split; [done |]. split; [| done]. by apply has_alpha_band_rgb.
  - done.
Qed.

(** X16: what the two converters hand to the encoder. For a JPEG target
    (jpg or jpeg) the format is "JPEG" and the image is in mode RGB, whatever
    the source mode: no alpha channel is left. For any other target the mode
    is RGBA when the source has an alpha band and RGB otherwise: alpha is
    kept. The frame is the one the image stood at. *)
Theorem prepared_modes (fmt : string) (im : image) :
  (in_list (upper fmt) ["JPG"; "JPEG"] = true →
   fst (prepare_rgb_with_background fmt im) = "JPEG"
   ∧ mode (snd (prepare_rgb_with_background fmt im)) = "RGB"
   ∧ frame (snd (prepare_rgb_with_background fmt im)) = frame im)
  ∧ (in_list (upper fmt) ["JPG"; "JPEG"] = false →
     fst (prepare_rgb_with_background fmt im) = upper fmt
     ∧ mode (snd (prepare_rgb_with_background fmt im))
       = (if has_alpha_band im then "RGBA" else "RGB")
     ∧ frame (snd (prepare_rgb_with_background fmt im)) = frame im)
  ∧ (in_list fmt ["jpg"; "jpeg"] = true →
     fst (prepare_webp fmt im) = "JPEG"
     ∧ mode (snd (prepare_webp fmt im)) = "RGB"
     ∧ frame (snd (prepare_webp fmt im)) = frame im)
  ∧ (in_list fmt ["jpg"; "jpeg"] = false →
     fst (prepare_webp fmt im) = upper fmt
     ∧ mode (snd (prepare_webp fmt im))
       = (if has_alpha_band im then "RGBA" else "RGB")
     ∧ frame (snd (prepare_webp fmt im)) = frame im).
Proof.
  split; [apply prepare_rgb_jpeg |]. split; [apply prepare_rgb_other |].
  split; [apply prepare_webp_jpeg | apply prepare_webp_other].
Qed.

Lemma prepared_modes_witness :
  fst (prepare_webp "jpg"
         {| mode := "RGBA"; transparency := false; is_animated := false;
            frame := 0; orientation := 1 |}) = "JPEG"
  ∧ mode (snd (prepare_webp "jpg"
         {| mode := "RGBA"; transparency := false; is_animated := false;
            frame := 0; orientation := 1 |})) = "RGB"
  ∧ frame (snd (prepare_webp "jpg"
         {| mode := "RGBA"; transparency := false; is_animated := false;
            frame := 0; orientation := 1 |})) = 0.
Proof.
  apply (proj1 (proj2 (proj2 (prepared_modes "jpg"
    {| mode := "RGBA"; transparency := false; is_animated := false;
       frame := 0; orientation := 1 |})))).
  reflexivity.
Defined.

Lemma first_frame_frame im :
  frame (first_frame im) = (if is_animated im then 0 else frame im).
Proof. unfold first_frame. by destruct (is_animated im). Qed.

(** The image a successful conversion leaves at the returned name. *)
Lemma convert_file_saved w prepare filename target_ext st :
  fst (convert_file w prepare filename target_ext st) ≠ filename →
  ∃ c im,
    dir st !! filename = Some c ∧ open_image w c = Some im
    ∧ dir (snd (convert_file w prepare filename target_ext st))
        !! fst (convert_file w prepare filename target_ext st)
      = Some (Encoded
                (fst (prepare (lstrip "." (lower target_ext)) (first_frame im)))
                (snd (prepare (lstrip "." (lower target_ext)) (first_frame im))))
    ∧ dir st !! fst (convert_file w prepare filename target_ext st) = None.
Proof.
  intros Hne.
  destruct (ConvertSpec.convert_file_cases w prepare filename target_ext st)
    as [(Hsame & _) | (c & im & fmt & im' & Hc & Ho & Hp & Heq)]; [done |].
  rewrite Heq. exists c, im. rewrite Hp. cbn [fst snd].
  pose proof (ConvertSpec.destination_fresh filename target_ext st) as Hf.
  assert (destination filename target_ext st ≠ filename) as Hd
    by (intros E; rewrite E, Hc in Hf; done).
  repeat split; try done.
  destruct (unlink_ok w filename); simpl.
  - rewrite lookup_delete_ne by done. apply lookup_insert_eq.
  - apply lookup_insert_eq.
Qed.

(** X17: what [convert_format] leaves behind when it returns a new name: the
    name was free before, and now holds an image decoded from the source
    file whose pixels are upright, in mode RGB or RGBA (RGB when the format
    is JPEG), taken from the first frame when the source is animated. *)
Theorem convert_format_result
    (w : world) (filename target_ext : string) (st : state) :
  fst (convert_format w filename target_ext st) ≠ filename →
  ∃ c im fmt im',
    dir st !! filename = Some c ∧ open_image w c = Some im
    ∧ dir st !! fst (convert_format w filename target_ext st) = None
    ∧ dir (snd (convert_format w filename target_ext st))
        !! fst (convert_format w filename target_ext st)
      = Some (Encoded fmt im')
    ∧ upright im' = true
    ∧ frame im' = (if is_animated im then 0 else frame im)
    ∧ mode im' ∈ ["RGB"; "RGBA"]
    ∧ (fmt = "JPEG" → mode im' = "RGB").
Proof.
  intros Hne. unfold convert_format in *.
  destruct (convert_file_saved w prepare_rgb_with_background _ _ _ Hne)
    as (c & im & Hc & Ho & Hsaved & Hfree).
  set (t := lstrip "." (lower target_ext)) in *.
  exists c, im, (fst (prepare_rgb_with_background t (first_frame im))),
    (snd (prepare_rgb_with_background t (first_frame im))).
  split; [done |]. split; [done |]. split; [done |]. split; [done |].
  split; [apply ConvertSpec.prepare_rgb_with_background_upright |].
  destruct (in_list (upper t) ["JPG"; "JPEG"]) eqn:E.
  - destruct (prepare_rgb_jpeg t (first_frame im) E) as (Hf & Hm & Hfr).
    rewrite Hfr, Hm, first_frame_frame.
    split; [done |]. split; [by left | done].
  - destruct (prepare_rgb_other t (first_frame im) E) as (Hf & Hm & Hfr).
    rewrite Hfr, Hm, Hf, first_frame_frame.
    split; [done |]. split.
    + destruct (has_alpha_band (first_frame im)); [right |]; by left.
    + intros Hj. rewrite Hj in E. done.
Qed.

Lemma convert_format_result_witness :
  ∃ c im fmt im',
    dir Sample.rotated_webp_dir !! "a.webp" = Some c
    ∧ open_image Sample.offline c = Some im
    ∧ dir Sample.rotated_webp_dir
        !! fst (convert_format Sample.offline "a.webp" "png"
                  Sample.rotated_webp_dir) = None
    ∧ dir (snd (convert_format Sample.offline "a.webp" "png"
                  Sample.rotated_webp_dir))
        !! fst (convert_format Sample.offline "a.webp" "png"
                  Sample.rotated_webp_dir)
      = Some (Encoded fmt im')
    ∧ upright im' = true
    ∧ frame im' = (if is_animated im then 0 else frame im)
    ∧ mode im' ∈ ["RGB"; "RGBA"]
    ∧ (fmt = "JPEG" → mode im' = "RGB").
Proof.
  apply (convert_format_result Sample.offline "a.webp" "png"
    Sample.rotated_webp_dir).
  vm_compute. discriminate.
Defined.

(** The two ways [convert_file] ends, as seen from outside. *)
Lemma convert_file_outcome w prepare filename target_ext st :
  (fst (convert_file w prepare filename target_ext st) = filename
   ∧ dir (snd (convert_file w prepare filename target_ext st)) = dir st)
  ∨ (fst (convert_file w prepare filename target_ext st) ≠ filename
     ∧ dir st !! fst (convert_file w prepare filename target_ext st) = None
     ∧ is_Some (dir st !! filename)
     ∧ is_Some (dir (snd (convert_file w prepare filename target_ext st))
                  !! fst (convert_file w prepare filename target_ext st))
     ∧ dir (snd (convert_file w prepare filename target_ext st)) !! filename
       = (if unlink_ok w filename then None else dir st !! filename)).
Proof.
  destruct (ConvertSpec.convert_file_cases w prepare filename target_ext st)
    as [(Hsame & Hd & _) | (c & im & fmt & im' & Hc & Ho & Hp & Heq)];
    [by left |].
  right. rewrite Heq. cbn [fst snd].
  pose proof (ConvertSpec.destination_fresh filename target_ext st) as Hf.
  assert (destination filename target_ext st ≠ filename) as Hd
    by (intros E; rewrite E, Hc in Hf; done).
  split; [done |]. split; [done |]. split; [by eexists |].
  destruct (unlink_ok w filename); simpl.
  - rewrite lookup_delete_ne by done. rewrite lookup_insert_eq, lookup_delete_eq.
    split; [by eexists | done].
  - rewrite lookup_insert_eq, lookup_insert_ne by done.
    split; [by eexists | done].
Qed.

(** X18: [maybe_convert_by_ext] either returns the name it was given and
    leaves the directory as it was, or returns a name that was free before
    and now holds an upright image, the source being removed unless its
    removal fails. Without a forced format, a name that ends in none of
    ".webp", ".heic", ".heif" (letter case apart) is left alone, and so is a
    HEIC/HEIF file when the HEIF decoder is not installed. *)
Theorem maybe_convert_by_ext_outcome
    (w : world) (filename webp heic force : string) (st : state) :
  ((fst (maybe_convert_by_ext w filename webp heic force st) = filename
    ∧ dir (snd (maybe_convert_by_ext w filename webp heic force st)) = dir st)
   ∨ (fst (maybe_convert_by_ext w filename webp heic force st) ≠ filename
      ∧ dir st !! fst (maybe_convert_by_ext w filename webp heic force st) = None
      ∧ (∃ fmt im,
           dir (snd (maybe_convert_by_ext w filename webp heic force st))
             !! fst (maybe_convert_by_ext w filename webp heic force st)
           = Some (Encoded fmt im)
           ∧ upright im = true)
      ∧ dir (snd (maybe_convert_by_ext w filename webp heic force st)) !! filename
        = (if unlink_ok w filename then None else dir st !! filename)))
  ∧ (force = "" →
     endswith (lower filename) ".webp" = false →
     endswith (lower filename) ".heic" = false →
     endswith (lower filename) ".heif" = false →
     maybe_convert_by_ext w filename webp heic force st = (filename, st))
  ∧ (force = "" →
     endswith (lower filename) ".webp" = false →
     heif_available w = false →
     fst (maybe_convert_by_ext w filename webp heic force st) = filename
     ∧ dir (snd (maybe_convert_by_ext w filename webp heic force st)) = dir st).
Proof.
  split; [| split].
  - destruct (decide (fst (maybe_convert_by_ext w filename webp heic force st)
                      = filename)) as [Heq | Hne].
    + left. split; [done |].
      unfold maybe_convert_by_ext, convert_format in *.
      destruct (truthy force).
      { destruct (convert_file_outcome w prepare_rgb_with_background
                    filename force st) as [[_ ?] | [? _]]; done. }
      destruct (endswith (lower filename) ".webp" && truthy webp).
      { destruct (convert_file_outcome w prepare_rgb_with_background
                    filename webp st) as [[_ ?] | [? _]]; done. }
      destruct ((endswith (lower filename) ".heic"
                 || endswith (lower filename) ".heif") && truthy heic); [| done].
      destruct (heif_available w); [| done].
      destruct (convert_file_outcome w prepare_rgb_with_background
                  filename heic st) as [[_ ?] | [? _]]; done.
    + right. split; [done |].
      pose proof (ConvertSpec.maybe_convert_by_ext_saves_upright
                    w filename webp heic force st Hne) as Hup.
      split; [| split; [done |]].
      * unfold maybe_convert_by_ext, convert_format in *.
        destruct (truthy force).
        { destruct (convert_file_outcome w prepare_rgb_with_background
                      filename force st) as [[? _] | (_ & ? & _)]; done. }
        destruct (endswith (lower filename) ".webp" && truthy webp).
        { destruct (convert_file_outcome w prepare_rgb_with_background
                      filename webp st) as [[? _] | (_ & ? & _)]; done. }
        destruct ((endswith (lower filename) ".heic"
                   || endswith (lower filename) ".heif") && truthy heic);
          [| done].
        destruct (heif_available w); [| done].
        destruct (convert_file_outcome w prepare_rgb_with_background
                    filename heic st) as [[? _] | (_ & ? & _)]; done.
      * unfold maybe_convert_by_ext, convert_format in *.
        destruct (truthy force).
        { destruct (convert_file_outcome w prepare_rgb_with_background
                      filename force st) as [[? _] | (_ & _ & _ & _ & ?)]; done. }
        destruct (endswith (lower filename) ".webp" && truthy webp).
        { destruct (convert_file_outcome w prepare_rgb_with_background
                      filename webp st) as [[? _] | (_ & _ & _ & _ & ?)]; done. }
        destruct ((endswith (lower filename) ".heic"
                   || endswith (lower filename) ".heif") && truthy heic);
          [| done].
        destruct (heif_available w); [| done].
        destruct (convert_file_outcome w prepare_rgb_with_background
                    filename heic st) as [[? _] | (_ & _ & _ & _ & ?)]; done.
  - intros -> Hw Hc Hf. unfold maybe_convert_by_ext.
    rewrite Hw, Hc, Hf. done.
  - intros -> Hw Hh. unfold maybe_convert_by_ext. rewrite Hw, Hh. simpl.
    by destruct ((endswith (lower filename) ".heic"
                  || endswith (lower filename) ".heif") && truthy heic).
Qed.

Lemma maybe_convert_by_ext_outcome_witness :
  maybe_convert_by_ext Sample.offline "a.png" "jpg" "jpg" ""
    Sample.rotated_webp_dir
  = ("a.png", Sample.rotated_webp_dir).
Proof.
  apply (proj1 (proj2 (maybe_convert_by_ext_outcome Sample.offline
    "a.png" "jpg" "jpg" "" Sample.rotated_webp_dir))); reflexivity.
Defined.

(** X19: [convert_if_webp] leaves every name that does not end in ".webp"
    (letter case apart) alone; when it returns a new name, that name was
    free before and holds the image decoded from the source, from its first
    frame when it is animated, in mode RGB or RGBA, with the pixels left in
    the orientation they were decoded in. *)
Theorem convert_if_webp_result
    (w : world) (filename target_ext : string) (st : state) :
  (endswith (lower filename) ".webp" = false →
   convert_if_webp w filename target_ext st = (filename, st))
  ∧ (fst (convert_if_webp w filename target_ext st) ≠ filename →
     endswith (lower filename) ".webp" = true
     ∧ ∃ c im fmt im',
         dir st !! filename = Some c ∧ open_image w c = Some im
         ∧ dir st !! fst (convert_if_webp w filename target_ext st) = None
         ∧ dir (snd (convert_if_webp w filename target_ext st))
             !! fst (convert_if_webp w filename target_ext st)
           = Some (Encoded fmt im')
         ∧ orientation im' = orientation im
         ∧ frame im' = (if is_animated im then 0 else frame im)
         ∧ mode im' ∈ ["RGB"; "RGBA"]).
Proof.
  split.
  - intros H. unfold convert_if_webp. by rewrite H.
  - unfold convert_if_webp.
    destruct (endswith (lower filename) ".webp"); simpl; [| done].
    intros Hne. split; [done |].
    destruct (convert_file_saved w prepare_webp _ _ _ Hne)
      as (c & im & Hc & Ho & Hsaved & Hfree).
    set (t := lstrip "." (lower target_ext)) in *.
    exists c, im, (fst (prepare_webp t (first_frame im))),
      (snd (prepare_webp t (first_frame im))).
    split; [done |]. split; [done |]. split; [done |]. split; [done |].
    split.
    { rewrite ConvertSpec.prepare_webp_orientation. unfold first_frame.
      by destruct (is_animated im). }
    destruct (in_list t ["jpg"; "jpeg"]) eqn:E.
    + destruct (prepare_webp_jpeg t (first_frame im) E) as (_ & Hm & Hfr).
      rewrite Hfr, Hm, first_frame_frame. split; [done | by left].
    + destruct (prepare_webp_other t (first_frame im) E) as (_ & Hm & Hfr).
      rewrite Hfr, Hm, first_frame_frame. split; [done |].
      destruct (has_alpha_band (first_frame im)); [right |]; by left.
Qed.

Lemma convert_if_webp_result_witness :
  convert_if_webp Sample.offline "a.png" "jpg" Sample.rotated_webp_dir
  = ("a.png", Sample.rotated_webp_dir).
Proof.
  apply (proj1 (convert_if_webp_result Sample.offline "a.png" "jpg"
    Sample.rotated_webp_dir)).
  reflexivity.
Defined.

End ConvertMore.


(** ** copy_images_to_events.py: the columns and the copies *)

Module FolderingMore.
Import PyStr CopyImagesToEvents.

Lemma lower_index_value cols k v :
  lower_index cols !! k = Some v → v ∈ cols ∧ lower v = k.
Proof.
  unfold lower_index. intros H.
  apply elem_of_list_to_map_2 in H.
  apply elem_of_reverse, list_elem_of_fmap in H as (c & [= -> ->] & Hc).
  done.
Qed.

(** X20: the header check of [main] passes exactly when some column is
    named "image_name" and some column "event", letter case apart, and the
    two columns it then reads are columns of the table with these names. *)
Theorem required_columns_found (cols : list string) :
  (is_Some (required_columns cols)
   ↔ "image_name" ∈ lower <$> cols ∧ "event" ∈ lower <$> cols)
  ∧ (∀ image_col event_col,
       required_columns cols = Some (image_col, event_col) →
       image_col ∈ cols ∧ lower image_col = "image_name"
       ∧ event_col ∈ cols ∧ lower event_col = "event").
Proof.
  split; [apply FolderingSpec.required_columns_accepts |].
  intros ic ec. unfold required_columns.
  destruct (lower_index cols !! "image_name") as [v1 |] eqn:E1;
    [| by rewrite bool_decide_eq_false_2 by (by intros [? ?])].
  destruct (lower_index cols !! "event") as [v2 |] eqn:E2.
  2:{ rewrite (bool_decide_eq_false_2 (is_Some None)) by (by intros [? ?]).
      by rewrite orb_true_r. }
  rewrite !bool_decide_eq_true_2 by by eexists.
  simpl. intros [= <- <-].
  apply lower_index_value in E1 as [? ?], E2 as [? ?]. done.
Qed.

Lemma required_columns_found_witness :
  "Image_Name" ∈ ["Event"; "Image_Name"] ∧ lower "Image_Name" = "image_name"
  ∧ "Event" ∈ ["Event"; "Image_Name"] ∧ lower "Event" = "event".
Proof.
  apply (proj2 (required_columns_found ["Event"; "Image_Name"])).
  vm_compute. reflexivity.
Defined.

(** What the loop of [main] keeps, whatever the counters it starts from. *)
Lemma copy_rows_inv inv image_col event_col rs :
  ∀ copied missing copies copied' missing' copies',
    copy_rows inv image_col event_col rs copied missing copies
      = (copied', missing', copies') →
    copied ≤ copied' ∧ missing ≤ missing'
    ∧ copied' + missing' ≤ copied + missing + length rs
    ∧ (dry_run inv = true → copies' = copies)
    ∧ (dry_run inv = false →
       copied' + length copies = copied + length copies')
    ∧ (Forall (λ p, all_chars (is_not "/") p.1 = true
                    ∧ is_file inv p.1 = true
                    ∧ p.2 ≠ ""
                    ∧ all_chars folder_char p.2 = true) copies →
       Forall (λ p, all_chars (is_not "/") p.1 = true
                    ∧ is_file inv p.1 = true
                    ∧ p.2 ≠ ""
                    ∧ all_chars folder_char p.2 = true) copies').
Proof.
  induction rs as [|r rs IH]; intros c m d c' m' d'; simpl.
  - intros [= <- <- <-]. repeat split; try done; lia.
  - destruct (negb (truthy (cell_text image_col r))).
    { intros H. apply IH in H as (? & ? & ? & ? & ? & ?).
      repeat split; try done; lia. }
    destruct (negb (is_file inv (Url.basename (cell_text image_col r)))) eqn:Ef.
    { intros H. apply IH in H as (? & ? & ? & ? & ? & ?).
      repeat split; try done; lia. }
    destruct (dry_run inv) eqn:Ed.
    { intros H. apply IH in H as (? & ? & ? & ? & ? & ?).
      repeat split; try done; lia. }
    destruct (copy_ok inv _ _).
    + intros H. apply IH in H as (? & ? & ? & _ & Hlen & HP).
      specialize (Hlen eq_refl). simpl in Hlen.
      repeat split; try done; try lia.
      intros Hd. apply HP. constructor; [| done]. simpl.
      split; [apply UrlFacts.basename_no_slash |].
      split; [by apply negb_false_iff in Ef |].
      split; [apply FolderingSpec.sanitize_name_nonempty |].
      apply SanitizeName.sanitize_name_shape.
    + intros H. apply IH in H as (? & ? & ? & ? & ? & ?).
      repeat split; try done; lia.
Qed.

(** X21: a run of [main] of copy_images_to_events.py. A dry run copies
    nothing; a run that exits does so with status 1 and has copied nothing;
    in the summary the copied and the missing rows together are at most the
    rows of the table, and outside a dry run the copied count is the number
    of copies made; every copy takes a file of the images directory, named
    without any "/", into a folder whose name is not empty and made of
    ASCII letters, digits, "-" and "_" only. *)
Theorem main_copies (inv : invocation) :
  (dry_run inv = true → snd (main inv) = [])
  ∧ (∀ code, fst (main inv) = Exit code → code = 1 ∧ snd (main inv) = [])
  ∧ (∀ copied missing,
       fst (main inv) = Summary copied missing →
       ∃ t, read_csv inv = Some t
            ∧ copied + missing ≤ length (rows t)
            ∧ (dry_run inv = false → copied = length (snd (main inv))))
  ∧ Forall (λ p, all_chars (is_not "/") p.1 = true
                 ∧ is_file inv p.1 = true
                 ∧ p.2 ≠ ""
                 ∧ all_chars folder_char p.2 = true) (snd (main inv)).
Proof.
  assert (∀ P : string * string → Prop,
    (dry_run inv = true → snd (Exit 1, @nil (string * string)) = [])
    ∧ (∀ code, fst (Exit 1, @nil (string * string)) = Exit code →
               code = 1 ∧ snd (Exit 1, @nil (string * string)) = [])
    ∧ (∀ copied missing,
         fst (Exit 1, @nil (string * string)) = Summary copied missing →
         ∃ t, read_csv inv = Some t
              ∧ copied + missing ≤ length (rows t)
              ∧ (dry_run inv = false →
                 copied = length (snd (Exit 1, @nil (string * string)))))
    ∧ Forall P (snd (Exit 1, @nil (string * string)))) as Hexit.
  { intros P. split; [done |]. split; [by intros ? [= <-] |].
    split; [by intros ? ? [=] | constructor]. }
  unfold main.
  destruct (negb (csv_exists inv)); [apply Hexit |].
  destruct (negb (images_dir_exists inv)); [apply Hexit |].
  destruct (read_csv inv) as [t |] eqn:Et; [| apply Hexit].
  destruct (required_columns (columns t)) as [[ic ec] |]; [| apply Hexit].
  destruct (copy_rows inv ic ec (rows t) 0 0 []) as [[c m] d] eqn:E.
  apply copy_rows_inv in E as (_ & _ & Hsum & Hdry & Hlen & HP).
  simpl. split; [done |]. split; [done |]. split.
  - intros c' m' [= <- <-]. exists t. split; [done |]. split; [lia |].
    intros Hd. specialize (Hlen Hd). simpl in Hlen. lia.
  - by apply HP.
Qed.

Lemma main_copies_witness :
  snd (main {| csv_exists := true; images_dir_exists := true;
               read_csv := Some {| columns := ["image_name"; "event"];
                                   rows := [[("image_name", Some "a.jpg");
                                             ("event", Some "Party 1")]] |};
               dry_run := true; is_file := λ _, true;
               copy_ok := λ _ _, true; decompose_char := λ _, "" |}) = [].
Proof.
  apply (proj1 (main_copies
    {| csv_exists := true; images_dir_exists := true;
       read_csv := Some {| columns := ["image_name"; "event"];
                           rows := [[("image_name", Some "a.jpg");
                                     ("event", Some "Party 1")]] |};
       dry_run := true; is_file := λ _, true;
       copy_ok := λ _ _, true; decompose_char := λ _, "" |})).
  reflexivity.
Defined.

End FolderingMore.


(** ** The extension from the Content-Type, and batches without local files *)

Module BatchMore.
Import PyStr ContentType Fetch Table.

Lemma nonempty_truthy o e : nonempty o = Some e → e ≠ "".
Proof.
  unfold nonempty. destruct o as [x |]; [| done].
  destruct (truthy x) eqn:E; [| done].
  intros [= <-]. by apply StrFacts.truthy_true.
Qed.

Lemma guess_v1_nonempty ge ct :
  DownloadImages.guess_ext_from_content_type ge ct ≠ "".
Proof.
  unfold DownloadImages.guess_ext_from_content_type.
  destruct (nonempty ct) as [c |]; [| done].
  destruct (nonempty (ge (media_type c))) as [e |] eqn:E.
  - destruct (in_list e jpeg_exts); [done |]. by apply nonempty_truthy in E.
  - destruct (startswith "image/" c); [| done].
    destruct (in_list (subtype_of c) ["jpeg"; "jpg"]); [done |].
    by destruct (in_list (subtype_of c) _).
Qed.

Lemma guess_v2_nonempty ge ct :
  DownloadImagesAsJpg.guess_ext_from_content_type ge ct ≠ "".
Proof.
  unfold DownloadImagesAsJpg.guess_ext_from_content_type.
  destruct (nonempty ct) as [c |]; [| done]. cbv zeta.
  destruct (opt_in (ge (media_type c)) jpeg_exts); [done |].
  destruct (nonempty (ge (media_type c))) as [e |] eqn:E.
  - by apply nonempty_truthy in E.
  - destruct (startswith "image/" c); [| done].
    by destruct (in_list (subtype_of c) ["jpeg"; "jpg"]).
Qed.

(** X22: [guess_ext_from_content_type] never returns the empty string, in
    any of the three scripts; so for a URL whose extension is ".jpg" (or
    missing) the extension of the downloaded file is always the one inferred
    from the Content-Type: the fallback to the URL's extension is never
    taken. *)
Theorem content_type_decides_for_jpg
    (ge : string → option string) (ct : option string) :
  DownloadImages.guess_ext_from_content_type ge ct ≠ ""
  ∧ DownloadImagesAsJpg.guess_ext_from_content_type ge ct ≠ ""
  ∧ DownloadImagesAsJpgForce.guess_ext_from_content_type ge ct ≠ ""
  ∧ choose_ext (DownloadImages.guess_ext_from_content_type ge) ct ".jpg"
    = DownloadImages.guess_ext_from_content_type ge ct
  ∧ choose_ext (DownloadImagesAsJpg.guess_ext_from_content_type ge) ct ".jpg"
    = DownloadImagesAsJpg.guess_ext_from_content_type ge ct.
Proof.
  pose proof (guess_v1_nonempty ge ct) as H1.
  pose proof (guess_v2_nonempty ge ct) as H2.
  split; [done |]. split; [done |]. split; [done |].
  unfold choose_ext.
  apply StrFacts.truthy_true in H1 as ->.
  apply StrFacts.truthy_true in H2 as ->. done.
Qed.




Example process_csv_404_and_empty :
  DownloadImages.process_csv Sample.always_404 3
    [[("url", "https://example.org/a.png")]; [("url", "")]] Sample.empty_state
  = Returned
      ([[("url", "https://example.org/a.png"); ("image_name", "")];
        [("url", ""); ("image_name", "")]],
       {| dir := ∅; gets := 3;
          trace := [EvWarn "Failed to download https://example.org/a.png";
                    EvGet "https://example.org/a.png";
                    EvGet "https://example.org/a.png";
                    EvGet "https://example.org/a.png"] |}).
Proof. vm_compute. reflexivity. Qed.

End BatchMore.
